(** * Bismuth tiling engine: a shallow embedding of the TypeScript sources

    The development follows the layout of the script:
    - [util/rect], [util/func]: geometry primitives and small helpers
    - [engine/layout/stair_part]: the stair layout part
    - [engine/layout/tile_stair_layout]: the tabbed-master layout
    - [engine/layout_store]: the per-screen layout registry
    - [driver/surface]: surfaces and their persisted group
    - [driver/window]: the KWin window wrapper and [commit]
    - [driver]: signal binding with re-entry prevention

    JavaScript numbers that hold pixel coordinates, indices and counters
    are integers in every use below and are modelled by [Z].  Objects that
    are mutated in place are modelled by explicit state passing: a method
    takes the receiver and returns the updated receiver next to its
    result.  A call that can throw returns how it completes.  Calls to the
    log are left out where the class holds a log (the driver); the surface
    and the window wrapper hold none, and there a call to the log is the
    [TypeError] it raises. *)

From stdpp Require Import gmap strings list pretty.
From Stdlib Require Import ZArith Lia.

Local Open Scope Z_scope.

(** ** util/rect *)

Module Rect.

Record t : Type := mk { x : Z; y : Z; width : Z; height : Z }.

Definition maxX (r : t) : Z := x r + width r.
Definition maxY (r : t) : Z := y r + height r.

#[global] Instance eq_dec : EqDecision t.
Proof. solve_decision. Defined.

(** Modelled from the spec: [Rect.includes], the containment test of the
    rectangle value type ([util/rect] is not part of the sources at
    hand).  [includes r other] holds when [other] lies inside [r], the
    edges included. *)
Definition includes (r other : t) : bool :=
  (x r <=? x other) && (y r <=? y other)
  && (maxX other <=? maxX r) && (maxY other <=? maxY r).

End Rect.

(** Modelled from the spec: [RectDelta], four independent edge offsets of an
    interactive resize ([util/rect] is not part of the sources at hand). *)
Record RectDelta : Type :=
  mkRectDelta { east : Z; west : Z; south : Z; north : Z }.

(** ** util/func *)

(** Modelled from the spec: [clip], clamp-to-bounds of a number
    ([util/func] is not part of the sources at hand). *)
Definition clip (value lo hi : Z) : Z :=
  if value <? lo then lo else if hi <? value then hi else value.

(** Modelled from the spec: [wrapIndex], the wraparound of [cycleLayout]:
    an index one step outside [0, length) comes back in at the other end
    ([util/func] is not part of the sources at hand). *)
Definition wrapIndex (index length : Z) : Z :=
  if index <? 0 then index + length
  else if length <=? index then index - length
  else index.

(** ** engine/window (the part the layouts touch) *)

(** Modelled from the spec: the [WindowState] variants. *)
Inductive WindowState : Type :=
| Unmanaged | Undecided | Tiled | Floating | Maximized | Minimized.

(** Modelled from the spec: the fields of [EngineWindow] that a layout
    part writes, next to the id of the window ([engine/window] is not part
    of the sources at hand). *)
Record EngineWindow : Type := mkEngineWindow {
  win_id : string;
  state : WindowState;
  geometry : Rect.t
}.

Definition set_state (s : WindowState) (w : EngineWindow) : EngineWindow :=
  {| win_id := win_id w; state := s; geometry := geometry w |}.

Definition set_geometry (g : Rect.t) (w : EngineWindow) : EngineWindow :=
  {| win_id := win_id w; state := state w; geometry := g |}.

(** ** controller/action *)

(** The action kinds the layouts tell apart with [instanceof]; every other
    action is an [OtherAction], known by its name only. *)
Inductive Action : Type :=
| DecreaseLayoutMasterAreaSize
| IncreaseLayoutMasterAreaSize
| IncreaseMasterAreaWindowCount
| DecreaseMasterAreaWindowCount
| Rotate
| RotateReverse
| RotatePart
| OtherAction (name : string).

(** ** engine/layout/stair_part *)

Module StairLayoutPart.

Record t : Type := mk { space : Z (* in PIXELS *) }.

(** [constructor] *)
Definition new : t := {| space := 24 |}.

(** The rectangle built in the body of the loop of [apply] at index [i]. *)
Definition tile_rect (space len : Z) (area : Rect.t) (i : Z) : Rect.t :=
  let dx := space * (len - i - 1) in
  let dy := space * i in
  Rect.mk (Rect.x area + dx) (Rect.y area + dy)
          (Rect.width area - dx) (Rect.height area - dy).

(** [for (let i = 0; i < len; i++)]: the tiles from index [i] on; every
    iteration stores the rectangle in the tile and pushes it to [res]. *)
Fixpoint apply_loop (space len : Z) (area : Rect.t) (i : Z)
         (tiles : list EngineWindow) : list Rect.t * list EngineWindow :=
  match tiles with
  | [] => ([], [])
  | tile :: rest =>
      let g := tile_rect space len area i in
      let '(res, rest') := apply_loop space len area (i + 1) rest in
      (g :: res, set_geometry g tile :: rest')
  end.

(** [apply(area, tileables)]: the geometries returned and the windows as
    the call leaves them. *)
Definition apply (p : t) (area : Rect.t) (tileables : list EngineWindow)
  : list Rect.t * list EngineWindow :=
  let tiles := set_state Tiled <$> tileables in
  let len := Z.of_nat (length tiles) in
  apply_loop (space p) len area 0 tiles.

(** What [adjust] leaves behind: the part, the windows it was given and
    the delta it returns. *)
Record adjusted : Type := mkAdjusted {
  adj_part : t;
  adj_tiles : list EngineWindow;
  adj_basis : EngineWindow;
  adj_delta : RectDelta
}.

(** [adjust(area, tiles, basis, delta)]: [/* do nothing */ return delta]. *)
Definition adjust (p : t) (area : Rect.t) (tiles : list EngineWindow)
           (basis : EngineWindow) (delta : RectDelta) : adjusted :=
  {| adj_part := p; adj_tiles := tiles; adj_basis := basis;
     adj_delta := delta |}.

(** [executeAction]: the part and whether the action's default effect
    ([executeWithoutLayoutOverride]) was invoked. *)
Definition executeAction (p : t) (a : Action) : t * bool :=
  match a with
  | DecreaseMasterAreaWindowCount => (mk (Z.max 16 (space p - 8)), false)
  | IncreaseMasterAreaWindowCount => (mk (Z.min 160 (space p + 8)), false)
  | _ => (p, true)
  end.

End StairLayoutPart.

(** ** engine/layout/layout_part and engine/layout: what the tabbed-master
    layout is built from *)

(** Modelled from the spec: the stack part, which lays every window into
    the same area; only its gap is touched here ([layout_part] is not part
    of the sources at hand). *)
Record StackLayoutPart : Type := mkStack { stack_gap : Z }.

(** Modelled from the spec: the rotate wrapper, an inner part and a
    quarter-turn angle stored mod 360 ([layout_part] is not part of the
    sources at hand). *)
Record RotateLayoutPart (T : Type) : Type :=
  mkRotate { inner : T; angle : Z }.
Arguments mkRotate {T}.
Arguments inner {T}.
Arguments angle {T}.

(** Modelled from the spec: [rotate(amount)] mutates the stored angle,
    kept mod 360. *)
Definition rotate {T : Type} (amount : Z) (p : RotateLayoutPart T)
  : RotateLayoutPart T :=
  mkRotate (inner p) ((angle p + amount) mod 360).

(** Modelled from the spec: the half-split part, a primary and a secondary
    sub-part, the number of windows that go to the primary one, and the
    ratio of the split ([layout_part] is not part of the sources at hand). *)
Record HalfSplitLayoutPart (R L S : Type) : Type := mkHalfSplit {
  primary : L;
  secondary : S;
  primarySize : Z;
  ratio : R;
  gap : Z
}.
Arguments mkHalfSplit {R L S}.
Arguments primary {R L S}.
Arguments secondary {R L S}.
Arguments primarySize {R L S}.
Arguments ratio {R L S}.
Arguments gap {R L S}.

(** Modelled from the spec: [LayoutState], the persisted parameters of a
    layout instance ([engine/layout] is not part of the sources at hand). *)
Record LayoutState : Type := mkLayoutState {
  rotation : Z;
  partRotation : Z;
  numMasterTiles : Z
}.

(** The calls a layout makes on the engine and on the action while it
    executes an action, in the order they are made. *)
Inductive EngineCall : Type :=
| ShowLayoutNotification
| ArrangeCurrentSurface
| ExecuteWithoutLayoutOverride (a : Action).

(** How many times the current surface is re-arranged in a run of calls. *)
Fixpoint arrange_count (calls : list EngineCall) : nat :=
  match calls with
  | [] => 0%nat
  | ArrangeCurrentSurface :: rest => S (arrange_count rest)
  | _ :: rest => arrange_count rest
  end.

(** ** engine/layout/tile_stair_layout *)

Module TabbedMasterLayout.

Section WithRatio.

(** The master ratio is a floating-point number; the layout only moves it
    with [slide] and [clip] of [util/func], which are taken as given, as is
    the reading of the literals [0.2], [0.8] and [0.05] (in hundredths). *)
Context {Ratio : Type}.
Variable slide : Ratio -> Ratio -> Ratio.
Variable clipRatio : Ratio -> Ratio -> Ratio -> Ratio.
Variable hundredths : Z -> Ratio.

Definition MIN_MASTER_RATIO : Ratio := hundredths 20.
Definition MAX_MASTER_RATIO : Ratio := hundredths 80.

Definition Parts : Type :=
  RotateLayoutPart
    (HalfSplitLayoutPart Ratio StairLayoutPart.t
                         (RotateLayoutPart StackLayoutPart)).

Record t : Type := mk {
  parts : Parts;
  lstate : LayoutState;
  uid : string
}.

(** [get numMasterTiles] *)
Definition get_numMasterTiles (l : t) : Z := primarySize (inner (parts l)).

Definition set_primarySize (value : Z) (ps : Parts) : Parts :=
  let h := inner ps in
  mkRotate (mkHalfSplit (primary h) (secondary h) value (ratio h) (gap h))
           (angle ps).

(** [set numMasterTiles] *)
Definition set_numMasterTiles (value : Z) (l : t) : t :=
  {| parts := set_primarySize value (parts l);
     lstate := {| rotation := rotation (lstate l);
                  partRotation := partRotation (lstate l);
                  numMasterTiles := value |};
     uid := uid l |}.

(** [get masterRatio] *)
Definition get_masterRatio (l : t) : Ratio := ratio (inner (parts l)).

(** [set masterRatio] *)
Definition set_masterRatio (value : Ratio) (l : t) : t :=
  let h := inner (parts l) in
  {| parts := mkRotate (mkHalfSplit (primary h) (secondary h)
                                    (primarySize h) value (gap h))
                       (angle (parts l));
     lstate := lstate l;
     uid := uid l |}.

(** [this.parts.rotate(amount); this.state.rotation = this.parts.angle] *)
Definition rotate_parts (amount : Z) (l : t) : t :=
  let ps := rotate amount (parts l) in
  {| parts := ps;
     lstate := {| rotation := angle ps;
                  partRotation := partRotation (lstate l);
                  numMasterTiles := numMasterTiles (lstate l) |};
     uid := uid l |}.

(** [this.parts.inner.secondary.rotate(90);
     this.state.partRotation = this.parts.inner.secondary.angle] *)
Definition rotate_secondary (l : t) : t :=
  let h := inner (parts l) in
  let sec := rotate 90 (secondary h) in
  {| parts := mkRotate (mkHalfSplit (primary h) sec (primarySize h)
                                    (ratio h) (gap h))
                       (angle (parts l));
     lstate := {| rotation := rotation (lstate l);
                  partRotation := angle sec;
                  numMasterTiles := numMasterTiles (lstate l) |};
     uid := uid l |}.

(** [constructor]: [st] is the layout state restored for [uid], [gap0] the
    configured [tileLayoutGap], [ratio0] the ratio a fresh half-split part
    starts with. *)
Definition new (gap0 : Z) (ratio0 : Ratio) (st : LayoutState) (uid0 : string)
  : t :=
  let l0 :=
    {| parts :=
         mkRotate
           (mkHalfSplit StairLayoutPart.new
                        (mkRotate (mkStack gap0) (partRotation st))
                        0 ratio0 gap0)
           (rotation st);
       lstate := st;
       uid := uid0 |} in
  set_numMasterTiles (numMasterTiles st) l0.

(** [executeAction(engine, action)]: the layout as the action leaves it and
    the calls made on the engine. *)
Definition executeAction (l : t) (action : Action) : t * list EngineCall :=
  match action with
  | DecreaseLayoutMasterAreaSize =>
      (set_masterRatio
         (clipRatio (slide (get_masterRatio l) (hundredths (-5)))
                    MIN_MASTER_RATIO MAX_MASTER_RATIO) l,
       [ArrangeCurrentSurface])
  | IncreaseLayoutMasterAreaSize =>
      (set_masterRatio
         (clipRatio (slide (get_masterRatio l) (hundredths 5))
                    MIN_MASTER_RATIO MAX_MASTER_RATIO) l,
       [ArrangeCurrentSurface])
  | IncreaseMasterAreaWindowCount =>
      ((if get_numMasterTiles l <? 10
        then set_numMasterTiles (get_numMasterTiles l + 1) l
        else l),
       [ShowLayoutNotification; ArrangeCurrentSurface])
  | DecreaseMasterAreaWindowCount =>
      ((if 0 <? get_numMasterTiles l
        then set_numMasterTiles (get_numMasterTiles l - 1) l
        else l),
       [ShowLayoutNotification; ArrangeCurrentSurface])
  | Rotate => (rotate_parts 90 l, [ArrangeCurrentSurface])
  | RotateReverse => (rotate_parts (-90) l, [ArrangeCurrentSurface])
  | RotatePart => (rotate_secondary l, [ArrangeCurrentSurface])
  | OtherAction _ => (l, [ExecuteWithoutLayoutOverride action])
  end.

End WithRatio.

End TabbedMasterLayout.

(** ** The collaborators of the driver: configuration, KWin workspace and
    the persistence proxy *)

(** A JavaScript number that is either an integer or [NaN]: what indexing
    an array out of its range and adding the [undefined] so obtained
    produces. *)
Inductive number : Type :=
| Num (z : Z)
| NaN.

#[global] Instance number_eq_dec : EqDecision number.
Proof. solve_decision. Defined.

(** Truthiness of a number: [0] and [NaN] are falsy. *)
Definition truthy (n : number) : bool :=
  match n with
  | Num z => negb (z =? 0)
  | NaN => false
  end.

(** [a + b] on numbers. *)
Definition number_add (a b : number) : number :=
  match a, b with
  | Num x, Num y => Num (x + y)
  | _, _ => NaN
  end.

(** A number handed to an [int] parameter of the proxy: [NaN] becomes [0]. *)
Definition to_int (n : number) : Z :=
  match n with
  | Num z => z
  | NaN => 0
  end.

(** The fields of [Config] that the modelled code reads. *)
Record Config : Type := mkConfig {
  layoutOrder : list string;
  preventProtrusion : bool;
  ignoreActivity : list string;
  ignoreScreen : list Z;
  tileLayoutGap : Z
}.

(** The part of [KWin.Api.workspace] (and of [activityInfo]) that the
    modelled code reads. *)
Record Workspace : Type := mkWorkspace {
  currentDesktop : Z;
  currentActivity : string;
  desktops : Z;
  clientArea : Z -> Z -> Rect.t;   (* placement area of a screen and desktop *)
  activityName : string -> string
}.

(** Persisted per-window state; a field that was never put is [None]. *)
Record WindowConfig : Type := mkWindowConfig {
  wc_group : option number;
  wc_minimized : option bool;
  wc_allDesktops : option bool
}.

(** Modelled from the spec: the persistence store behind [TSProxy]
    ([ts-proxy.hpp] declares the calls, their bodies are not part of the
    sources at hand): an integer group keyed by (desktop, screen), the
    persisted class id of a layout registry entry keyed by its uid, and the
    per-window state keyed by window id. *)
Record TSProxy : Type := mkTSProxy {
  surfaceGroups : gmap (Z * Z) Z;
  layoutClassIDs : gmap string string;
  windowStates : gmap string WindowConfig
}.

(** [getSurfaceGroup(desktop, screen)]: [0] when nothing is persisted. *)
Definition getSurfaceGroup (px : TSProxy) (desktop screen : Z) : number :=
  Num (default 0 (surfaceGroups px !! (desktop, screen))).

(** [setSurfaceGroup(desktop, screen, groupID)] *)
Definition setSurfaceGroup (px : TSProxy) (desktop screen : Z)
           (groupID : number) : TSProxy :=
  {| surfaceGroups := <[(desktop, screen) := to_int groupID]> (surfaceGroups px);
     layoutClassIDs := layoutClassIDs px;
     windowStates := windowStates px |}.

(** [JSON.parse(getWindowState(id))] *)
Definition getWindowState (px : TSProxy) (id : string) : WindowConfig :=
  default (mkWindowConfig None None None) (windowStates px !! id).

(** [putWindowState(id, JSON.stringify(state))] *)
Definition putWindowState (px : TSProxy) (id : string) (st : WindowConfig)
  : TSProxy :=
  {| surfaceGroups := surfaceGroups px;
     layoutClassIDs := layoutClassIDs px;
     windowStates := <[id := st]> (windowStates px) |}.

(** ** Exceptions *)

(** The [TypeError] that reading a property of [undefined] raises;
    [property] names the property that was read. *)
Inductive exn : Type :=
| TypeError (property : string).

(** How a call completes. *)
Inductive completion (A : Type) : Type :=
| Returns (a : A)
| Throws (e : exn).

Arguments Returns {A} a.
Arguments Throws {A} e.

(** [o.name], where [o] may be [undefined]. *)
Definition member {A : Type} (o : option A) (name : string) : completion A :=
  match o with
  | Some a => Returns a
  | None => Throws (TypeError name)
  end.

(** ** driver/surface *)

Module DriverSurfaceImpl.

Record t : Type := mk {
  _screen : Z;
  activity : string;
  desktop : Z;
  ignore : bool;
  workingArea : Rect.t;
  _group : number
}.

(** [get screen] *)
Definition screen (s : t) : Z := _screen s.

(** [set screen] *)
Definition set_screen (v : Z) (s : t) : t :=
  {| _screen := v; activity := activity s; desktop := desktop s;
     ignore := ignore s; workingArea := workingArea s; _group := _group s |}.

Definition set__group (g : number) (s : t) : t :=
  {| _screen := _screen s; activity := activity s; desktop := desktop s;
     ignore := ignore s; workingArea := workingArea s; _group := g |}.

(** [constructor] *)
Definition new (screen0 : Z) (activity0 : string) (desktop0 : Z)
           (config : Config) (ws : Workspace) : t :=
  {| _screen := screen0;
     activity := activity0;
     desktop := desktop0;
     ignore :=
       bool_decide (activityName ws activity0 ∈ ignoreActivity config)
       || bool_decide (screen0 ∈ ignoreScreen config);
     workingArea := clientArea ws screen0 desktop0;
     _group := Num 0 |}.

Definition customScreenOrder : list Z := [4; 1; 3; 2; 5; 6; 7; 8; 9].

(** [customScreenOrder[i]]: [undefined] outside the array, which the
    addition that follows turns into [NaN]. *)
Definition order_at (i : Z) : number :=
  if i <? 0 then NaN
  else match customScreenOrder !! Z.to_nat i with
       | Some v => Num v
       | None => NaN
       end.

(** [this.proxy] and [this.log].  The class declares no field of either
    name, and its constructor takes [_screen], [activity], [desktop],
    [activityInfo], [config] and [kwinApi] only: both read as [undefined]
    on every surface. *)
Definition this_proxy (s : t) : option TSProxy := None.
Definition this_log (s : t) : option unit := None.

(** [set group]: the surface and the store as the call leaves them. *)
Definition set_group (groupID : number) (s : t) : completion (t * TSProxy) :=
  match member (this_log s) "log" with
  | Throws e => Throws e
  | Returns _ =>
      match member (this_proxy s) "setSurfaceGroup" with
      | Throws e => Throws e
      | Returns px =>
          Returns (set__group groupID s,
                   setSurfaceGroup px (desktop s) (screen s) groupID)
      end
  end.

(** [get group]: the value returned and the surface as the call leaves
    it. *)
Definition get_group (s : t) : completion (number * t) :=
  if truthy (_group s) then Returns (_group s, s)
  else
    match member (this_proxy s) "getSurfaceGroup" with
    | Throws e => Throws e
    | Returns px =>
        let g := getSurfaceGroup px (desktop s) (screen s) in
        if negb (truthy g) then
          let g :=
            number_add (Num ((desktop s - 1) * 5)) (order_at (screen s)) in
          match member (this_log s) "log" with
          | Throws e => Throws e
          | Returns _ =>
              match set_group g s with
              | Throws e => Throws e
              | Returns (s1, _) => Returns (g, set__group g s1)
              end
          end
        else Returns (g, set__group g s)
    end.

(** The group a surface is seeded with on first touch. *)
Definition derived_group (s : t) : number :=
  number_add (Num ((desktop s - 1) * 5)) (order_at (screen s)).

End DriverSurfaceImpl.

(** ** engine/layout: layout objects *)

(** The layout classes the registry can instantiate.  Their bodies are not
    part of the sources at hand; a layout object is known here by its class
    and by its identity on the heap. *)
Inductive LayoutClass : Type :=
| MonocleLayout
| QuarterLayout
| SpiralLayout
| SpreadLayout
| StairLayout
| ThreeColumnLayout
| TileLayout
| FloatingLayout.

#[global] Instance LayoutClass_eq_dec : EqDecision LayoutClass.
Proof. solve_decision. Defined.

(** Object identity: a reference to a layout object, and the heap of the
    layout objects allocated so far. *)
Definition loc : Type := positive.
Abbreviation Heap := (gmap positive LayoutClass).

(** [new C(...)]: a fresh object of class [C]. *)
Definition alloc (h : Heap) (c : LayoutClass) : loc * Heap :=
  let l := fresh (dom h) in (l, <[l := c]> h).

(** [FloatingLayout.instance], the object created once by the static
    initialiser of the class, and the heap right after it. *)
Definition FloatingLayout_instance : loc := 1%positive.
Definition initial_heap : Heap := {[ FloatingLayout_instance := FloatingLayout ]}.

(** ** engine/layout_store *)

(** [arr[i]] on an array of strings: [undefined] ([None]) outside of it. *)
Definition array_at (arr : list string) (i : Z) : option string :=
  if i <? 0 then None else arr !! Z.to_nat i.

(** [arr.indexOf(x)] from position [i] on: [-1] when [x] does not occur. *)
Fixpoint indexOf_from (arr : list string) (x : option string) (i : Z) : Z :=
  match arr with
  | [] => -1
  | a :: rest =>
      if decide (x = Some a) then i else indexOf_from rest x (i + 1)
  end.

Definition indexOf (arr : list string) (x : option string) : Z :=
  indexOf_from arr x 0.

(** The property name under which an id that may be [undefined] is looked
    up in an object used as a dictionary. *)
Definition property_key (id : option string) : string :=
  default "undefined" id.

(** The names a plain object ([{}]) answers to without having been given
    them: the properties it inherits from [Object.prototype].  Reading
    such a name from a plain object yields the inherited value, which is
    truthy. *)
Definition Object_prototype_properties : list string :=
  ["constructor"; "__defineGetter__"; "__defineSetter__"; "hasOwnProperty";
   "__lookupGetter__"; "__lookupSetter__"; "isPrototypeOf";
   "propertyIsEnumerable"; "toString"; "valueOf"; "__proto__";
   "toLocaleString"].

Module LayoutStoreEntry.

Section WithClassIds.

(** The static [id] of every layout class (the classes are not part of the
    sources at hand). *)
Variable class_id : LayoutClass -> string.

Record t : Type := mk {
  currentIndex : option Z;          (* [null] is [None] *)
  currentID : option string;        (* [undefined] is [None] *)
  layouts : gmap string loc;
  previousID : option string;
  uid : string
}.

(** The classes [createLayoutFromId] tells apart by their id, and their
    ids. *)
Definition known_classes : list LayoutClass :=
  [MonocleLayout; QuarterLayout; SpiralLayout; SpreadLayout; StairLayout;
   ThreeColumnLayout; TileLayout].

Definition known_ids : list string := class_id <$> known_classes.

(** [createLayoutFromId(id)] *)
Definition createLayoutFromId (h : Heap) (id : option string) : loc * Heap :=
  if decide (id = Some (class_id MonocleLayout)) then alloc h MonocleLayout
  else if decide (id = Some (class_id QuarterLayout)) then alloc h QuarterLayout
  else if decide (id = Some (class_id SpiralLayout)) then alloc h SpiralLayout
  else if decide (id = Some (class_id SpreadLayout)) then alloc h SpreadLayout
  else if decide (id = Some (class_id StairLayout)) then alloc h StairLayout
  else if decide (id = Some (class_id ThreeColumnLayout))
       then alloc h ThreeColumnLayout
  else if decide (id = Some (class_id TileLayout)) then alloc h TileLayout
  else alloc h FloatingLayout.

(** [loadLayout(ID)]: the cached layout of that id, created and cached on
    first use.  [layouts] holds the properties the entry has given to
    [this.layouts]; the read [this.layouts[ID]] is the lookup below for
    every id that is not among [Object_prototype_properties] (for one that
    is, the read finds the inherited property and the code returns it
    without creating a layout). *)
Definition loadLayout (e : t) (h : Heap) (ID : option string)
  : loc * t * Heap :=
  match layouts e !! property_key ID with
  | Some layout => (layout, e, h)
  | None =>
      let '(layout, h') := createLayoutFromId h ID in
      (layout,
       {| currentIndex := currentIndex e; currentID := currentID e;
          layouts := <[property_key ID := layout]> (layouts e);
          previousID := previousID e; uid := uid e |},
       h')
  end.

(** [get currentLayout] *)
Definition currentLayout (e : t) (h : Heap) : loc * t * Heap :=
  loadLayout e h (currentID e).

(** The id the constructor starts from: the persisted [state.classID] when
    it is truthy, the head of the configured order otherwise. *)
Definition initial_id (config : Config) (px : TSProxy) (uid0 : string)
  : option string :=
  match layoutClassIDs px !! uid0 with
  | Some classID =>
      if decide (classID = EmptyString) then array_at (layoutOrder config) 0
      else Some classID
  | None => array_at (layoutOrder config) 0
  end.

(** [constructor(config, proxy, uid)] *)
Definition new (config : Config) (px : TSProxy) (uid0 : string) (h : Heap)
  : t * Heap :=
  let id0 := initial_id config px uid0 in
  let e := {| currentIndex := Some 0; currentID := id0; layouts := ∅;
              previousID := id0; uid := uid0 |} in
  let '(_, e', h') := loadLayout e h (currentID e) in
  (e', h').

(** [cycleLayout(step)] *)
Definition cycleLayout (config : Config) (e : t) (h : Heap) (step : Z)
  : loc * t * Heap :=
  let idx :=
    match currentIndex e with
    | Some i => wrapIndex (i + step) (Z.of_nat (length (layoutOrder config)))
    | None => 0
    end in
  let e1 := {| currentIndex := Some idx;
               currentID := array_at (layoutOrder config) idx;
               layouts := layouts e;
               previousID := currentID e;
               uid := uid e |} in
  loadLayout e1 h (currentID e1).

(** [updateCurrentIndex()] *)
Definition updateCurrentIndex (config : Config) (e : t) : t :=
  let idx := indexOf (layoutOrder config) (currentID e) in
  {| currentIndex := if idx =? -1 then None else Some idx;
     currentID := currentID e; layouts := layouts e;
     previousID := previousID e; uid := uid e |}.

(** [toggleLayout(targetID)] *)
Definition toggleLayout (config : Config) (e : t) (h : Heap)
           (targetID : string) : loc * t * Heap :=
  let '(targetLayout, e1, h1) := loadLayout e h (Some targetID) in
  let e2 :=
    if decide (currentID e1 = Some targetID) then
      {| currentIndex := currentIndex e1; currentID := previousID e1;
         layouts := layouts e1; previousID := Some targetID; uid := uid e1 |}
    else
      {| currentIndex := currentIndex e1; currentID := Some targetID;
         layouts := layouts e1; previousID := currentID e1; uid := uid e1 |} in
  (targetLayout, updateCurrentIndex config e2, h1).

End WithClassIds.

End LayoutStoreEntry.

Module LayoutStore.

Section WithClassIds.

Variable class_id : LayoutClass -> string.

Record t : Type := mk { store : gmap string LayoutStoreEntry.t }.

(** [constructor] *)
Definition new : t := {| store := ∅ |}.

(** [getEntry(key)] *)
Definition getEntry (config : Config) (px : TSProxy) (ls : t) (h : Heap)
           (key : string) : LayoutStoreEntry.t * t * Heap :=
  match store ls !! key with
  | Some e => (e, ls, h)
  | None =>
      let '(e, h') := LayoutStoreEntry.new class_id config px key h in
      (e, {| store := <[key := e]> (store ls) |}, h')
  end.

(** The entry object is shared between the store and its user: what a
    method does to it is seen through the store. *)
Definition put_entry (key : string) (e : LayoutStoreEntry.t) (ls : t) : t :=
  {| store := <[key := e]> (store ls) |}.

(** [getCurrentLayout(srf)] *)
Definition getCurrentLayout (config : Config) (px : TSProxy) (ls : t)
           (h : Heap) (srf : DriverSurfaceImpl.t) : loc * t * Heap :=
  if DriverSurfaceImpl.ignore srf then (FloatingLayout_instance, ls, h)
  else
    let key := pretty (DriverSurfaceImpl.screen srf) in
    let '(e, ls1, h1) := getEntry config px ls h key in
    let '(layout, e', h2) := LayoutStoreEntry.currentLayout class_id e h1 in
    (layout, put_entry key e' ls1, h2).

(** [cycleLayout(srf, step)]: [null] is [None]. *)
Definition cycleLayout (config : Config) (px : TSProxy) (ls : t) (h : Heap)
           (srf : DriverSurfaceImpl.t) (step : Z) : option loc * t * Heap :=
  if DriverSurfaceImpl.ignore srf then (None, ls, h)
  else
    let key := pretty (DriverSurfaceImpl.screen srf) in
    let '(e, ls1, h1) := getEntry config px ls h key in
    let '(layout, e', h2) :=
      LayoutStoreEntry.cycleLayout class_id config e h1 step in
    (Some layout, put_entry key e' ls1, h2).

(** [toggleLayout(surf, layoutClassID)]: [null] is [None]. *)
Definition toggleLayout (config : Config) (px : TSProxy) (ls : t) (h : Heap)
           (surf : DriverSurfaceImpl.t) (layoutClassID : string)
  : option loc * t * Heap :=
  if DriverSurfaceImpl.ignore surf then (None, ls, h)
  else
    let key := pretty (DriverSurfaceImpl.screen surf) in
    let '(e, ls1, h1) := getEntry config px ls h key in
    let '(layout, e', h2) :=
      LayoutStoreEntry.toggleLayout class_id config e h1 layoutClassID in
    (Some layout, put_entry key e' ls1, h2).

End WithClassIds.

End LayoutStore.

(** ** driver/window *)

(** The part of a [KWin.Client] that the window wrapper reads and writes. *)
Module KWinClient.

Record Size : Type := mkSize { sz_width : Z; sz_height : Z }.

Record t : Type := mk {
  windowId : string;
  desktop : Z;
  screen : Z;
  activities : list string;
  resize : bool;
  move : bool;
  resizeable : bool;
  noBorder : bool;
  keepAbove : bool;
  frameGeometry : Rect.t;
  minSize : Size;
  maxSize : Size
}.

Definition set_desktop (v : Z) (c : t) : t :=
  mk (windowId c) v (screen c) (activities c) (resize c) (move c)
     (resizeable c) (noBorder c) (keepAbove c) (frameGeometry c)
     (minSize c) (maxSize c).

Definition set_noBorder (v : bool) (c : t) : t :=
  mk (windowId c) (desktop c) (screen c) (activities c) (resize c) (move c)
     (resizeable c) v (keepAbove c) (frameGeometry c)
     (minSize c) (maxSize c).

Definition set_keepAbove (v : bool) (c : t) : t :=
  mk (windowId c) (desktop c) (screen c) (activities c) (resize c) (move c)
     (resizeable c) (noBorder c) v (frameGeometry c)
     (minSize c) (maxSize c).

Definition set_frameGeometry (v : Rect.t) (c : t) : t :=
  mk (windowId c) (desktop c) (screen c) (activities c) (resize c) (move c)
     (resizeable c) (noBorder c) (keepAbove c) v
     (minSize c) (maxSize c).

End KWinClient.

(** A write to a property of the client, as the binding sees it. *)
Inductive ClientWrite : Type :=
| WriteDesktop (d : Z)
| WriteNoBorder (b : bool)
| WriteKeepAbove (b : bool)
| WriteFrameGeometry (r : Rect.t)
| WriteFrameWidth (w : Z)
| WriteFrameHeight (h : Z).

(** Whether a write touches the frame geometry. *)
Definition is_geometry_write (w : ClientWrite) : bool :=
  match w with
  | WriteFrameGeometry _ | WriteFrameWidth _ | WriteFrameHeight _ => true
  | _ => false
  end.

(** The writes of a run that touch the frame geometry, in order. *)
Definition geometry_writes (ws : list ClientWrite) : list ClientWrite :=
  List.filter is_geometry_write ws.

Module DriverWindowImpl.

Record t : Type := mk {
  client : KWinClient.t;
  _desktop : Z;
  _screen : option Z;               (* [null] is [None] *)
  _group : number;
  _hidden : bool;
  maximized : bool;
  noBorderManaged : bool;
  noBorderOriginal : bool
}.

(** What a method of the window runs in: the window itself, the
    persistence proxy of the script, and the writes made to the client so
    far (oldest first). *)
Record World : Type := mkWorld {
  win : t;
  proxy : TSProxy;
  writes : list ClientWrite
}.

Definition with_win (f : t -> t) (σ : World) : World :=
  mkWorld (f (win σ)) (proxy σ) (writes σ).

(** An assignment to a property of [this.client]. *)
Definition write_client (f : KWinClient.t -> KWinClient.t) (ev : ClientWrite)
           (σ : World) : World :=
  let w := win σ in
  mkWorld (mk (f (client w)) (_desktop w) (_screen w) (_group w) (_hidden w)
              (maximized w) (noBorderManaged w) (noBorderOriginal w))
          (proxy σ) (writes σ ++ [ev]).

Definition set__desktop (v : Z) (w : t) : t :=
  mk (client w) v (_screen w) (_group w) (_hidden w) (maximized w)
     (noBorderManaged w) (noBorderOriginal w).

Definition set__hidden (v : bool) (w : t) : t :=
  mk (client w) (_desktop w) (_screen w) (_group w) v (maximized w)
     (noBorderManaged w) (noBorderOriginal w).

Definition set_noBorderManaged (v : bool) (w : t) : t :=
  mk (client w) (_desktop w) (_screen w) (_group w) (_hidden w) (maximized w)
     v (noBorderOriginal w).

Definition set_noBorderOriginal (v : bool) (w : t) : t :=
  mk (client w) (_desktop w) (_screen w) (_group w) (_hidden w) (maximized w)
     (noBorderManaged w) v.

(** [this.log] and [this.proxy].  The class declares neither field (lines
    116-120) and its constructor takes [client], [qml], [config] and
    [kwinApi] only (lines 332-337; the driver hands its proxy over as a
    fifth argument, which the constructor does not take): both read as
    [undefined] in every window. *)
Definition this_log (w : t) : option unit := None.
Definition this_proxy (w : t) : option unit := None.

(** [proxy.workspace()]: [TSProxy] declares no such call. *)
Definition TSProxy_workspace (px : TSProxy) : option Workspace := None.

(** A method of the window that may throw: the world as the call leaves
    it (what was assigned before a throw stays assigned) and how the call
    completes. *)
Definition M (A : Type) : Type := World -> World * completion A.

Definition ret {A : Type} (a : A) : M A := fun σ => (σ, Returns a).

Definition bind {A B : Type} (m : M A) (f : A -> M B) : M B :=
  fun σ =>
    match m σ with
    | (σ1, Returns a) => f a σ1
    | (σ1, Throws e) => (σ1, Throws e)
    end.

Notation "'let!' x ':=' m 'in' k" :=
  (bind m (fun x => k))
  (at level 10, x name, m at level 100, k at level 200).

(** A statement that cannot throw. *)
Definition lift (f : World -> World) : M unit := fun σ => (f σ, Returns tt).

(** A read of the window. *)
Definition read {A : Type} (f : t -> A) : M A :=
  fun σ => (σ, Returns (f (win σ))).

(** [this.log.log(...)]: the method is looked up before its arguments are
    evaluated. *)
Definition log_log : M unit :=
  fun σ => (σ, member (this_log (win σ)) "log").

(** [this.proxy.name], about to be called. *)
Definition proxy_call (name : string) : M unit :=
  fun σ => (σ, member (this_proxy (win σ)) name).

(** [this.proxy.workspace().desktops] *)
Definition proxy_desktops : M Z :=
  let! _ := proxy_call "workspace" in
  fun σ =>
    (σ, match member (TSProxy_workspace (proxy σ)) "workspace" with
        | Returns w => Returns (desktops w)
        | Throws e => Throws e
        end).

(** [set desktop] *)
Definition set_desktop (desktop : Z) : M unit :=
  let! _ := log_log in
  let! _ := lift (write_client (KWinClient.set_desktop desktop)
                               (WriteDesktop desktop)) in
  (* save the allDesktops state to disk *)
  let! _ := proxy_call "getWindowState" in
  let! _ := proxy_call "putWindowState" in
  lift (fun σ =>
          let id := KWinClient.windowId (client (win σ)) in
          let state := getWindowState (proxy σ) id in
          let state' :=
            {| wc_group := wc_group state;
               wc_minimized := wc_minimized state;
               wc_allDesktops :=
                 Some (bool_decide
                         (KWinClient.desktop (client (win σ)) = -1)) |} in
          mkWorld (win σ) (putWindowState (proxy σ) id state') (writes σ)).

(** [set hidden] *)
Definition set_hidden (hide : bool) : M unit :=
  let! _ := log_log in
  let! _ := lift (with_win (set__hidden hide)) in
  let! d := read (fun w => KWinClient.desktop (client w)) in
  let! park :=
    (if hide then let! n := proxy_desktops in ret (negb (d =? n))
     else ret false) in
  if park then
    let! _ := lift (with_win (set__desktop d)) in
    let! n := proxy_desktops in
    set_desktop n
  else
    let! n := proxy_desktops in
    if d =? n then
      let! own := read _desktop in
      lift (write_client (KWinClient.set_desktop own) (WriteDesktop own))
    else ret tt.

(** [get screen] *)
Definition get_screen : M (option Z) :=
  let! s := read _screen in
  let! _ :=
    (match s with
     | Some z => if (z <? 0) || (4 <? z) then log_log else ret tt
     | None => log_log
     end) in
  ret s.

(** The surface that [get surface] constructs, given by the arguments it
    hands to the constructor of [DriverSurfaceImpl]. *)
Record SurfaceOf : Type := mkSurfaceOf {
  so_screen : option Z;
  so_activity : option string;      (* [activities[0]] of an empty array *)
  so_desktop : Z
}.

(** [get surface]: the getter constructs a surface whenever it returns. *)
Definition surface (ws : Workspace) : M (option SurfaceOf) :=
  let! acts := read (fun w => KWinClient.activities (client w)) in
  let activity :=
    if bool_decide (length acts = 0%nat) then Some (currentActivity ws)
    else if bool_decide (currentActivity ws ∈ acts)
         then Some (currentActivity ws)
         else acts !! 0%nat in
  let! d := read (fun w => KWinClient.desktop (client w)) in
  let desktop := if 0 <=? d then d else currentDesktop ws in
  let! screen := get_screen in
  ret (Some (mkSurfaceOf screen activity desktop)).

(** [adjustGeometry(geometry)] *)
Definition adjustGeometry (w : t) (geometry : Rect.t) : Rect.t :=
  let c := client w in
  let '(width, height) :=
    if negb (KWinClient.resizeable c) then
      (Rect.width (KWinClient.frameGeometry c),
       Rect.height (KWinClient.frameGeometry c))
    else
      (clip (Rect.width geometry)
            (KWinClient.sz_width (KWinClient.minSize c))
            (KWinClient.sz_width (KWinClient.maxSize c)),
       clip (Rect.height geometry)
            (KWinClient.sz_height (KWinClient.minSize c))
            (KWinClient.sz_height (KWinClient.maxSize c))) in
  Rect.mk (Rect.x geometry) (Rect.y geometry) width height.

Section WithIncludes.

(** [Rect.includes] is not part of the sources at hand; [commit] is
    modelled for any containment test. *)
Variable includes : Rect.t -> Rect.t -> bool.

(** [a != b] on two [QRect]s is the host's: by the rectangles they hold in
    one host, by the identity of the two objects in another.  [commit] is
    modelled for any such test. *)
Variable differs : Rect.t -> Rect.t -> bool.

(** The [noBorder !== undefined] block of [commit]. *)
Definition commit_noBorder (noBorder : bool) (σ : World) : World :=
  let w := win σ in
  let σ1 :=
    if negb (noBorderManaged w) && noBorder then
      with_win (set_noBorderOriginal (KWinClient.noBorder (client w))) σ
    else if noBorderManaged w && negb (KWinClient.noBorder (client w)) then
      with_win (set_noBorderOriginal false) σ
    else σ in
  let σ2 :=
    if noBorder then
      write_client (KWinClient.set_noBorder true) (WriteNoBorder true) σ1
    else if noBorderManaged (win σ1) then
      write_client (KWinClient.set_noBorder (noBorderOriginal (win σ1)))
                   (WriteNoBorder (noBorderOriginal (win σ1))) σ1
    else σ1 in
  with_win (set_noBorderManaged noBorder) σ2.

(** The geometry [commit] ends up with before it compares it with the
    frame geometry of the client: resize hints, then protrusion
    prevention. *)
Definition commit_target (config : Config) (ws : Workspace) (w : t)
           (geometry : Rect.t) : Rect.t :=
  let geometry := adjustGeometry w geometry in
  if preventProtrusion config then
    let area :=
      clientArea ws (KWinClient.screen (client w)) (currentDesktop ws) in
    if negb (includes area geometry) then
      (* assume windows will extrude only through right and bottom edges *)
      let x := Rect.x geometry
               + Z.min (Rect.maxX area - Rect.maxX geometry) 0 in
      let y := Rect.y geometry
               + Z.min (Rect.maxY area - Rect.maxY geometry) 0 in
      adjustGeometry w (Rect.mk x y (Rect.width geometry)
                                (Rect.height geometry))
    else geometry
  else geometry.

(** The [geometry !== undefined] block of [commit]. *)
Definition commit_geometry (config : Config) (ws : Workspace)
           (geometry : Rect.t) : M unit :=
  let! w := read (fun w => w) in
  let geometry := commit_target config ws w geometry in
  let c := client w in
  if differs (KWinClient.frameGeometry c) geometry then
    if negb (KWinClient.move c) then
      let! _ := log_log in
      lift (write_client (KWinClient.set_frameGeometry geometry)
                         (WriteFrameGeometry geometry))
    else
      let! _ :=
        lift (write_client
                (fun c => KWinClient.set_frameGeometry
                            (Rect.mk (Rect.x (KWinClient.frameGeometry c))
                                     (Rect.y (KWinClient.frameGeometry c))
                                     (Rect.width geometry)
                                     (Rect.height
                                        (KWinClient.frameGeometry c))) c)
                (WriteFrameWidth (Rect.width geometry))) in
      lift (write_client
              (fun c => KWinClient.set_frameGeometry
                          (Rect.mk (Rect.x (KWinClient.frameGeometry c))
                                   (Rect.y (KWinClient.frameGeometry c))
                                   (Rect.width (KWinClient.frameGeometry c))
                                   (Rect.height geometry)) c)
              (WriteFrameHeight (Rect.height geometry)))
  else log_log.

(** The state [commit] is in when it reaches its geometry block: the
    border block and the keep-above assignment, neither of which can
    throw. *)
Definition before_geometry (noBorder keepAbove : option bool) (σ : World)
  : World :=
  let σ2 := match noBorder with
            | Some nb => commit_noBorder nb σ
            | None => σ
            end in
  match keepAbove with
  | Some ka => write_client (KWinClient.set_keepAbove ka) (WriteKeepAbove ka) σ2
  | None => σ2
  end.

(** [commit] from its resize guard on (lines 385-459): what follows the
    surface check and [this.hidden = false]. *)
Definition commit_rest (config : Config) (ws : Workspace)
           (geometry : option Rect.t) (noBorder keepAbove : option bool)
  : M unit :=
  let! resizing := read (fun w => KWinClient.resize (client w)) in
  if resizing then ret tt
  else
    let! _ := lift (before_geometry noBorder keepAbove) in
    match geometry with
    | Some g => commit_geometry config ws g
    | None => ret tt
    end.

(** [commit(geometry?, noBorder?, keepAbove?)] *)
Definition commit (config : Config) (ws : Workspace)
           (geometry : option Rect.t) (noBorder keepAbove : option bool)
  : M unit :=
  let! surf := surface ws in
  match surf with
  | None =>
      let! _ := log_log in
      set_hidden true
  | Some _ =>
      let! _ := set_hidden false in
      commit_rest config ws geometry noBorder keepAbove
  end.

End WithIncludes.

(** What the geometry block of [commit] reads from the client. *)
Definition geometry_view (c : KWinClient.t)
  : bool * bool * bool * Rect.t * KWinClient.Size * KWinClient.Size * Z :=
  (KWinClient.resize c, KWinClient.move c, KWinClient.resizeable c,
   KWinClient.frameGeometry c, KWinClient.minSize c, KWinClient.maxSize c,
   KWinClient.screen c).

(** A step that neither touches the frame geometry nor anything the
    geometry block reads. *)
Definition frame_untouched (σ σ' : World) : Prop :=
  geometry_view (client (win σ')) = geometry_view (client (win σ))
  /\ geometry_writes (writes σ') = geometry_writes (writes σ).

End DriverWindowImpl.

(** ** driver: signal binding with re-entry prevention *)

Module DriverImpl.

(** What a handler does, step by step.  [Work] is a step with an effect of
    its own; [Raise] is a step during which the host raises a signal
    synchronously (KWin emits signals as soon as a state is changed, also
    when the script changes it); [Throw] raises an exception. *)
Inductive stmt : Type :=
| Work (name : string)
| Raise (signal : string)
| Throw (name message : string).

Definition handler : Type := list stmt.

Record t : Type := mk {
  entered : bool;
  registeredConnections : list (string * handler);
  ran : list (string * bool);   (* the steps run, each with the value of
                                   [entered] it has seen; oldest first *)
  log : list string
}.

Definition set_entered (v : bool) (d : t) : t :=
  mk v (registeredConnections d) (ran d) (log d).

Definition record_step (name : string) (d : t) : t :=
  mk (entered d) (registeredConnections d) (ran d ++ [(name, entered d)])
     (log d).

Definition log_line (line : string) (d : t) : t :=
  mk (entered d) (registeredConnections d) (ran d) (log d ++ [line]).

(** The result of running code that may throw: the state it leaves, and
    the exception if one escaped.  [None] around it: out of fuel. *)
Definition outcome : Type := t * option (string * string).

(** The body of a handler; [emit] is what the host does when a signal is
    raised. *)
Fixpoint run_body (emit : string -> t -> option t) (body : handler) (d : t)
  : option outcome :=
  match body with
  | [] => Some (d, None)
  | Work name :: rest => run_body emit rest (record_step name d)
  | Raise signal :: rest =>
      match emit signal d with
      | Some d' => run_body emit rest d'
      | None => None
      end
  | Throw name message :: _ => Some (d, Some (name, message))
  end.

(** [enter(callback)] *)
Definition enter (callback : t -> option outcome) (d : t) : option t :=
  if entered d then Some d
  else
    match callback (set_entered true d) with
    | Some (d1, thrown) =>
        let d2 :=
          match thrown with
          | Some (name, message) =>
              log_line ("Oops! " +:+ name +:+ ": " +:+ message +:+ ". ") d1
          | None => d1
          end in
        Some (set_entered false d2)
    | None => None
    end.

(** [connect(signal, handler)]: the callback bound to the signal is
    [enter(() => handler.apply(this, args))]; the pair is kept. *)
Definition connect (signal : string) (h : handler) (d : t) : t :=
  mk (entered d) (registeredConnections d ++ [(signal, h)]) (ran d) (log d).

(** The handlers connected to a signal, in the order of connection. *)
Definition handlers_of (signal : string) (d : t) : list handler :=
  snd <$> filter (fun p => fst p = signal) (registeredConnections d).

(** The host calls the callbacks bound to a signal one after the other. *)
Fixpoint call_all (callback : handler -> t -> option t) (hs : list handler)
         (d : t) : option t :=
  match hs with
  | [] => Some d
  | h :: rest =>
      match callback h d with
      | Some d' => call_all callback rest d'
      | None => None
      end
  end.

(** A notification: the host raises [signal].  Handlers may raise signals
    in turn, without bound; [fuel] bounds the depth of the nesting. *)
Fixpoint emit (fuel : nat) (signal : string) (d : t) : option t :=
  match fuel with
  | O => None
  | S fuel' =>
      call_all (fun h d' => enter (run_body (emit fuel') h) d')
               (handlers_of signal d) d
  end.

(** The steps of its own that a handler runs when no signal it raises is
    served: its [Work] steps up to the first [Throw]. *)
Fixpoint own_steps (body : handler) : list string :=
  match body with
  | [] => []
  | Work name :: rest => name :: own_steps rest
  | Raise _ :: rest => own_steps rest
  | Throw _ _ :: _ => []
  end.

(** The steps of a handler as they are recorded when every one of them
    sees the guard set. *)
Definition guarded_steps (body : handler) : list (string * bool) :=
  (fun name => (name, true)) <$> own_steps body.

(** The exception that escapes a handler whose raised signals are all
    dropped: the first [Throw] it reaches. *)
Fixpoint thrown_by (body : handler) : option (string * string) :=
  match body with
  | [] => None
  | Work _ :: rest => thrown_by rest
  | Raise _ :: rest => thrown_by rest
  | Throw name message :: _ => Some (name, message)
  end.

(** The lines [enter] logs for such a handler: one when it throws. *)
Definition oops_lines (body : handler) : list string :=
  match thrown_by body with
  | Some (name, message) =>
      ["Oops! " +:+ name +:+ ": " +:+ message +:+ ". "]
  | None => []
  end.

End DriverImpl.

(** [WrapperMap<F, T>]: wrapped items under the key their hasher gives.
    The wrapped items are objects, so a stored item is never [undefined]
    and never falsy. *)
Module WrapperMap.

Section WithTypes.

Context {F T : Type}.
Variable hasher : F -> string.
Variable wrapper : F -> T.

Record t : Type := mk { items : gmap string T }.

(** [constructor] *)
Definition new : t := {| items := ∅ |}.

(** [add(item)]: the string thrown on the left, the wrapped item and the
    map on the right. *)
Definition add (item : F) (m : t) : string + (T * t) :=
  let key := hasher item in
  match items m !! key with
  | Some _ => inl ("WrapperMap: the key [" +:+ key +:+ "] already exists!")
  | None =>
      let wrapped := wrapper item in
      inr (wrapped, {| items := <[key := wrapped]> (items m) |})
  end.

(** [get(item)]: [null] is [None]. *)
Definition get (item : F) (m : t) : option T := items m !! hasher item.

(** [getByKey(key)] *)
Definition getByKey (key : string) (m : t) : option T := items m !! key.

(** [remove(item)]: [delete] answers [true] whether the key was there or
    not. *)
Definition remove (item : F) (m : t) : bool * t :=
  (true, {| items := delete (hasher item) (items m) |}).

End WithTypes.

End WrapperMap.

(** The handlers that [bindWindowEvents] binds to the move/resize and the
    frame-geometry signals of a client. *)
Module WindowEvents.

(** The calls the handlers make on the controller. *)
Inductive ControllerCall : Type :=
| onWindowMoveStart
| onWindowMoveOver
| onWindowResizeStart
| onWindowResizeOver
| onWindowMove
| onWindowResize
| onWindowGeometryChanged.

(** The two variables the handlers close over. *)
Record tracker : Type := mkTracker { moving : bool; resizing : bool }.

(** [let moving = false; let resizing = false] *)
Definition initial : tracker := {| moving := false; resizing := false |}.

(** The handler of [moveResizedChanged]; [move] and [resize] are
    [client.move] and [client.resize] when it runs. *)
Definition moveResizedChanged (st : tracker) (move resize : bool)
  : tracker * list ControllerCall :=
  let '(m, calls1) :=
    if negb (eqb (moving st) move) then
      (move, [if move then onWindowMoveStart else onWindowMoveOver])
    else (moving st, []) in
  let '(r, calls2) :=
    if negb (eqb (resizing st) resize) then
      (resize, [if resize then onWindowResizeStart else onWindowResizeOver])
    else (resizing st, []) in
  ({| moving := m; resizing := r |}, calls1 ++ calls2).

(** The handler of [frameGeometryChanged]; [differs] is whether the actual
    geometry of the window differs from the geometry the engine wants. *)
Definition frameGeometryChanged (st : tracker) (move resize differs : bool)
  : list ControllerCall :=
  if moving st || move then [onWindowMove]
  else if resizing st || resize then [onWindowResize]
  else if differs then [onWindowGeometryChanged]
  else [].

(** A notification that gets through to one of the two handlers, with
    the state of the client at that time. *)
Inductive notification : Type :=
| MoveResized (move resize : bool)
| FrameGeometry (move resize differs : bool).

(** The handlers run on a sequence of notifications: the tracker at the
    end and the calls made on the controller, in order. *)
Fixpoint run (st : tracker) (ns : list notification)
  : tracker * list ControllerCall :=
  match ns with
  | [] => (st, [])
  | MoveResized move resize :: rest =>
      let '(st1, calls) := moveResizedChanged st move resize in
      let '(st2, calls') := run st1 rest in
      (st2, calls ++ calls')
  | FrameGeometry move resize differs :: rest =>
      let calls := frameGeometryChanged st move resize differs in
      let '(st2, calls') := run st rest in
      (st2, calls ++ calls')
  end.

(** Reading a run of calls as brackets: a start opens, an over closes;
    [open] tells whether a bracket is open.  The result is whether a
    bracket is open at the end, or [None] when a start comes while one is
    open or an over while none is. *)
Fixpoint bracketed (start over : ControllerCall -> bool) (open : bool)
         (calls : list ControllerCall) : option bool :=
  match calls with
  | [] => Some open
  | c :: rest =>
      if start c then
        if open then None else bracketed start over true rest
      else if over c then
        if open then bracketed start over false rest else None
      else bracketed start over open rest
  end.

Definition is_move_start (c : ControllerCall) : bool :=
  match c with onWindowMoveStart => true | _ => false end.
Definition is_move_over (c : ControllerCall) : bool :=
  match c with onWindowMoveOver => true | _ => false end.
Definition is_resize_start (c : ControllerCall) : bool :=
  match c with onWindowResizeStart => true | _ => false end.
Definition is_resize_over (c : ControllerCall) : bool :=
  match c with onWindowResizeOver => true | _ => false end.

End WindowEvents.

(** ** Runs of actions on a layout *)

(** The stair part after a run of actions, each executed in turn. *)
Definition stair_run (p : StairLayoutPart.t) (actions : list Action)
  : StairLayoutPart.t :=
  foldl (fun q a => fst (StairLayoutPart.executeAction q a)) p actions.

Section TabbedMasterRuns.

Context {Ratio : Type}.
Variable slide : Ratio -> Ratio -> Ratio.
Variable clipRatio : Ratio -> Ratio -> Ratio -> Ratio.
Variable hundredths : Z -> Ratio.

(** The tabbed-master layout after a run of actions, each executed in
    turn. *)
Definition tabbed_run (l : TabbedMasterLayout.t (Ratio:=Ratio))
           (actions : list Action) : TabbedMasterLayout.t (Ratio:=Ratio) :=
  foldl (fun q a =>
           fst (TabbedMasterLayout.executeAction slide clipRatio hundredths
                                                 q a))
        l actions.


End TabbedMasterRuns.

(** ** Runs of registry operations *)

Section RegistryRuns.

Variable class_id : LayoutClass -> string.

(** [cycleLayout(step)] called [k] times in a row on an entry. *)
Fixpoint cycle_times (config : Config) (k : nat) (step : Z)
         (e : LayoutStoreEntry.t) (h : Heap) : LayoutStoreEntry.t * Heap :=
  match k with
  | O => (e, h)
  | S k' =>
      let '(_, e1, h1) :=
        LayoutStoreEntry.cycleLayout class_id config e h step in
      cycle_times config k' step e1 h1
  end.

(** The index of an entry is in step with its current id: it lies within
    the configured order and names the current id there. *)
Definition index_in_step (config : Config) (e : LayoutStoreEntry.t) (i : Z)
  : Prop :=
  LayoutStoreEntry.currentIndex e = Some i
  /\ 0 <= i < Z.of_nat (length (layoutOrder config))
  /\ LayoutStoreEntry.currentID e = array_at (layoutOrder config) i.

End RegistryRuns.

(** ** Concrete inputs of the examples *)

(** A layout restored from a persisted master count of [n]; the ratio is
    read in hundredths. *)
Definition restored_layout (n : Z) : TabbedMasterLayout.t (Ratio:=Z) :=
  TabbedMasterLayout.new 0 50 (mkLayoutState 0 0 n) "0".

Definition slideZ (value step : Z) : Z := value + step.

(** The surface of screen 1 on desktop 2, as the driver constructs it. *)
Definition surface_2_1 : DriverSurfaceImpl.t :=
  DriverSurfaceImpl.mk 1 "a" 2 false (Rect.mk 0 0 1920 1080) (Num 0).

(** The ids of the layout classes, each class named after itself as
    [TabbedMasterLayout.id] and [StairLayoutPart.id] are. *)
Definition class_name (c : LayoutClass) : string :=
  match c with
  | MonocleLayout => "MonocleLayout"
  | QuarterLayout => "QuarterLayout"
  | SpiralLayout => "SpiralLayout"
  | SpreadLayout => "SpreadLayout"
  | StairLayout => "StairLayout"
  | ThreeColumnLayout => "ThreeColumnLayout"
  | TileLayout => "TileLayout"
  | FloatingLayout => "FloatingLayout"
  end.

(** A configuration that cycles between the tile and the monocle layout,
    and a store in which the registry entry of screen 0 has the monocle
    layout persisted as its current one. *)
Definition config_tile_monocle : Config :=
  mkConfig ["TileLayout"; "MonocleLayout"] true [] [] 0.

Definition proxy_monocle_persisted : TSProxy :=
  mkTSProxy ∅ {[ "0" := "MonocleLayout" ]} ∅.

(** A configuration whose first layout id names no layout class, a surface
    of screen 0 that is tiled and one that is ignored. *)
Definition config_unknown_first : Config :=
  mkConfig ["NoSuchLayout"] true [] [] 0.

Definition surface_screen0 : DriverSurfaceImpl.t :=
  DriverSurfaceImpl.mk 0 "a" 1 false (Rect.mk 0 0 1920 1080) (Num 0).

Definition surface_ignored : DriverSurfaceImpl.t :=
  DriverSurfaceImpl.mk 0 "a" 1 true (Rect.mk 0 0 1920 1080) (Num 0).

(** A resizable window of screen 0 with a 50 by 50 frame at the origin and
    loose size limits, idle or in the middle of an interactive move; a
    workspace whose placement area is 100 by 100 at the origin; a
    configuration with protrusion prevention on. *)
Definition client_50x50 (moving : bool) : KWinClient.t :=
  KWinClient.mk "w1" 1 0 [] false moving true false false
                (Rect.mk 0 0 50 50)
                (KWinClient.mkSize 0 0) (KWinClient.mkSize 10000 10000).

Definition world_50x50 (moving : bool) : DriverWindowImpl.World :=
  DriverWindowImpl.mkWorld
    (DriverWindowImpl.mk (client_50x50 moving) 1 (Some 0) (Num 0) false false
                         false false)
    (mkTSProxy ∅ ∅ ∅) [].

Definition workspace_100x100 : Workspace :=
  mkWorkspace 1 "a" 2 (fun _ _ => Rect.mk 0 0 100 100) (fun a => a).

Definition config_prevent : Config :=
  mkConfig ["TileLayout"] true [] [] 0.


(** A driver with one handler bound to the frame-geometry signal; the
    handler moves windows, which makes the host raise the same signal
    again from within it. *)
Definition driver_feedback : DriverImpl.t :=
  DriverImpl.connect
    "frameGeometryChanged"
    [DriverImpl.Work "arrange"; DriverImpl.Raise "frameGeometryChanged";
     DriverImpl.Work "done"]
    (DriverImpl.mk false [] [] []).

(** A store in which the registry entry of screen 0 has the spiral layout
    persisted as its current one: a layout outside of the order of
    [config_tile_monocle]. *)
Definition proxy_spiral_persisted : TSProxy :=
  mkTSProxy ∅ {[ "0" := "SpiralLayout" ]} ∅.

(** A registry entry on the tile layout, the head of the order of
    [config_tile_monocle], with nothing cached yet; a surface of screen 1. *)
Definition entry_on_tile : LayoutStoreEntry.t :=
  LayoutStoreEntry.mk (Some 0) (Some "TileLayout") ∅ (Some "TileLayout") "0".

Definition surface_screen1 : DriverSurfaceImpl.t :=
  DriverSurfaceImpl.mk 1 "a" 1 false (Rect.mk 1920 0 1920 1080) (Num 0).

(** A driver with two handlers bound to one signal, the first of which
    throws half way. *)
Definition driver_throwing : DriverImpl.t :=
  DriverImpl.connect
    "clientAdded" [DriverImpl.Work "bind"]
    (DriverImpl.connect
       "clientAdded"
       [DriverImpl.Work "add"; DriverImpl.Throw "Error" "exists";
        DriverImpl.Work "never"]
       (DriverImpl.mk false [] [] [])).

(** * Properties *)

(** ** The stair layout part *)

Section StairFacts.

Import StairLayoutPart.

Lemma apply_loop_imap space len area tiles : forall i,
  apply_loop space len area i tiles =
    (imap (fun k _ => tile_rect space len area (i + Z.of_nat k)) tiles,
     imap (fun k w =>
             set_geometry (tile_rect space len area (i + Z.of_nat k)) w)
          tiles).
Proof.
  induction tiles as [|w rest IH]; intros i.
  - reflexivity.
  - cbn [apply_loop]. rewrite IH, !imap_cons.
    replace (i + Z.of_nat 0) with i by lia.
    f_equal; f_equal; apply imap_ext; intros k v _; unfold compose;
      replace (i + 1 + Z.of_nat k) with (i + Z.of_nat (S k)) by lia;
      reflexivity.
Qed.

Lemma apply_imap p area tileables :
  apply p area tileables =
    (imap (fun k _ => tile_rect (space p) (Z.of_nat (length tileables))
                                area (Z.of_nat k)) tileables,
     imap (fun k w =>
             set_geometry
               (tile_rect (space p) (Z.of_nat (length tileables))
                          area (Z.of_nat k))
               (set_state Tiled w))
          tileables).
Proof.
  unfold apply. rewrite apply_loop_imap, length_fmap, !imap_fmap.
  f_equal; apply imap_ext; intros k w _; reflexivity.
Qed.

(** C2: for every list of n tileable windows and every area, [apply] of the
    stair part returns exactly n geometries, one per input window in input
    order; window i is offset by step*(n-1-i) on the x axis and by step*i
    on the y axis, and its width and height are reduced by the same
    offsets (the window itself ends up tiled with that geometry).  With 3
    windows, area (0,0,900,600) and step 24 the geometries are
    (48,0,852,600), (24,24,876,576) and (0,48,900,552). *)
Theorem stair_apply_geometries
        (p : StairLayoutPart.t) (area : Rect.t)
        (tileables : list EngineWindow) :
  let n := Z.of_nat (length tileables) in
  let offset_rect (i : nat) :=
    Rect.mk (Rect.x area + space p * (n - 1 - Z.of_nat i))
            (Rect.y area + space p * Z.of_nat i)
            (Rect.width area - space p * (n - 1 - Z.of_nat i))
            (Rect.height area - space p * Z.of_nat i) in
  length (fst (apply p area tileables)) = length tileables
  /\ fst (apply p area tileables) = imap (fun i _ => offset_rect i) tileables
  /\ snd (apply p area tileables)
     = imap (fun i w => set_geometry (offset_rect i) (set_state Tiled w))
            tileables
  /\ (forall w0 w1 w2 : EngineWindow,
        fst (apply (StairLayoutPart.mk 24) (Rect.mk 0 0 900 600) [w0; w1; w2])
        = [Rect.mk 48 0 852 600; Rect.mk 24 24 876 576;
           Rect.mk 0 48 900 552]).
Proof.
  intros n offset_rect.
  assert (Hrect : forall i : nat,
             tile_rect (space p) n area (Z.of_nat i) = offset_rect i).
  { intros i. unfold tile_rect, offset_rect.
    replace (n - Z.of_nat i - 1) with (n - 1 - Z.of_nat i) by lia.
    reflexivity. }
  rewrite apply_imap. fold n. cbn [fst snd].
  split; [|split; [|split]].
  - apply length_imap.
  - apply imap_ext. intros i w _. apply Hrect.
  - apply imap_ext. intros i w _. rewrite Hrect. reflexivity.
  - intros w0 w1 w2. reflexivity.
Qed.

(** C10: for every area, window list, basis window and delta, [adjust] of
    the stair part returns the delta it was given and leaves the part, the
    windows and the basis window as they were: the whole delta remains for
    the parent. *)
Theorem stair_adjust_returns_delta
        (p : StairLayoutPart.t) (area : Rect.t) (tiles : list EngineWindow)
        (basis : EngineWindow) (delta : RectDelta) :
  adj_delta (adjust p area tiles basis delta) = delta
  /\ adj_part (adjust p area tiles basis delta) = p
  /\ adj_tiles (adjust p area tiles basis delta) = tiles
  /\ adj_basis (adjust p area tiles basis delta) = basis.
Proof. repeat split. Qed.

End StairFacts.

(** ** The tabbed-master layout *)

Section TabbedMasterFacts.

Import TabbedMasterLayout.

Context {Ratio : Type}.
Variable slide : Ratio -> Ratio -> Ratio.
Variable clipRatio : Ratio -> Ratio -> Ratio -> Ratio.
Variable hundredths : Z -> Ratio.

Local Abbreviation exec := (executeAction slide clipRatio hundredths).

Lemma get_set_numMasterTiles (v : Z) (l : t (Ratio:=Ratio)) :
  get_numMasterTiles (set_numMasterTiles v l) = v.
Proof. reflexivity. Qed.

Lemma increase_count (l : t (Ratio:=Ratio)) :
  get_numMasterTiles (fst (exec l IncreaseMasterAreaWindowCount))
  = if get_numMasterTiles l <? 10 then get_numMasterTiles l + 1
    else get_numMasterTiles l.
Proof.
  cbn [executeAction fst].
  destruct (get_numMasterTiles l <? 10); [apply get_set_numMasterTiles|].
  reflexivity.
Qed.

Lemma recognised_arranges_once (l : t (Ratio:=Ratio)) (a : Action) :
  arrange_count (snd (exec l a))
  = match a with OtherAction _ => 0%nat | _ => 1%nat end.
Proof. destruct a; reflexivity. Qed.

(** C9: on the tabbed-master layout, the increase-master-area-window-count
    action run at a count of 1 leaves a count of 2; from every count the
    layout holds (an integer of at most 10: the count starts from what the
    layout has persisted and is changed by 1 only, under the guards of the
    two count actions) the count stays at most 10, the action leaving the
    layout as it is at 10; every action the layout recognises triggers
    exactly one re-arrange of the current surface, and an action it does
    not recognise is handed to its default effect with no re-arrange by
    the layout. *)
Theorem increase_master_count_bounded (l : t (Ratio:=Ratio)) :
  get_numMasterTiles l <= 10 ->
  let l' := fst (exec l IncreaseMasterAreaWindowCount) in
  get_numMasterTiles l' <= 10
  /\ get_numMasterTiles l' = Z.min 10 (get_numMasterTiles l + 1)
  /\ (get_numMasterTiles l = 1 -> get_numMasterTiles l' = 2)
  /\ (forall l0 : t (Ratio:=Ratio),
        10 <= get_numMasterTiles l0 ->
        fst (exec l0 IncreaseMasterAreaWindowCount) = l0)
  /\ (forall a : Action,
        arrange_count (snd (exec l a))
        = match a with OtherAction _ => 0%nat | _ => 1%nat end).
Proof.
  intros Hle l'. subst l'. rewrite increase_count.
  split; [|split; [|split; [|split]]].
  - destruct (Z.ltb_spec (get_numMasterTiles l) 10); lia.
  - destruct (Z.ltb_spec (get_numMasterTiles l) 10); lia.
  - intros ->. reflexivity.
  - intros l0 H0. cbn [executeAction fst].
    destruct (Z.ltb_spec (get_numMasterTiles l0) 10); [lia|reflexivity].
  - apply recognised_arranges_once.
Qed.

End TabbedMasterFacts.

Lemma increase_master_count_bounded_witness :
  let l := restored_layout 1 in
  let exec := TabbedMasterLayout.executeAction slideZ clip id in
  TabbedMasterLayout.get_numMasterTiles l <= 10
  /\ TabbedMasterLayout.get_numMasterTiles
       (fst (exec l IncreaseMasterAreaWindowCount)) = 2.
Proof.
  split; [vm_compute; discriminate|].
  apply (increase_master_count_bounded slideZ clip id (restored_layout 1));
    [vm_compute; discriminate | reflexivity].
Defined.

(** ** Surfaces and their group *)

Section SurfaceFacts.

Import DriverSurfaceImpl.

Lemma get_group_cached (s : t) :
  truthy (_group s) = true -> get_group s = Returns (_group s, s).
Proof. intros H. unfold get_group. rewrite H. reflexivity. Qed.

Lemma get_group_uncached (s : t) :
  truthy (_group s) = false ->
  get_group s = Throws (TypeError "getSurfaceGroup").
Proof. intros H. unfold get_group. rewrite H. reflexivity. Qed.

Lemma set_group_throws (g : number) (s : t) :
  set_group g s = Throws (TypeError "log").
Proof. reflexivity. Qed.

End SurfaceFacts.

(** C4: the group getter as the class stands.  On a surface as the
    constructor leaves it (nothing cached) the getter does not return: it
    throws the [TypeError] of reading [getSurfaceGroup] from
    [this.proxy], which the class never declares or receives; nothing is
    derived, persisted or cached.  The setter throws likewise, at its
    call to the log, so the cached group never leaves 0.  On the surface
    of screen 1 and desktop 2 the group to derive is
    (2-1)*5 + order[1] = 6, and the getter throws there too. *)
Theorem group_getter_throws_on_first_touch
        (screen0 : Z) (activity0 : string) (desktop0 : Z)
        (config : Config) (ws : Workspace) :
  let s := DriverSurfaceImpl.new screen0 activity0 desktop0 config ws in
  DriverSurfaceImpl.get_group s = Throws (TypeError "getSurfaceGroup")
  /\ (forall g : number,
        DriverSurfaceImpl.set_group g s = Throws (TypeError "log"))
  /\ DriverSurfaceImpl.derived_group surface_2_1 = Num 6
  /\ DriverSurfaceImpl.get_group surface_2_1
     = Throws (TypeError "getSurfaceGroup").
Proof.
  intros s. split; [|split; [|split]].
  - apply get_group_uncached. reflexivity.
  - intros g. apply set_group_throws.
  - reflexivity.
  - apply get_group_uncached. reflexivity.
Qed.

(** ** The layout registry *)

Section RegistryFacts.

Import LayoutStoreEntry.

Variable class_id : LayoutClass -> string.

Lemma loadLayout_ids (e : t) (h : Heap) (ID : option string) :
  let e' := snd (fst (loadLayout class_id e h ID)) in
  currentID e' = currentID e
  /\ previousID e' = previousID e
  /\ currentIndex e' = currentIndex e.
Proof.
  unfold loadLayout.
  destruct (layouts e !! property_key ID); [repeat split|].
  destruct (createLayoutFromId class_id h ID). repeat split.
Qed.

Lemma toggleLayout_ids (config : Config) (e : t) (h : Heap) (X : string) :
  let e' := snd (fst (toggleLayout class_id config e h X)) in
  currentID e' = (if decide (currentID e = Some X) then previousID e
                  else Some X)
  /\ previousID e' = (if decide (currentID e = Some X) then Some X
                     else currentID e).
Proof.
  unfold toggleLayout.
  destruct (loadLayout_ids e h (Some X)) as (Hc & Hp & _).
  destruct (loadLayout class_id e h (Some X)) as [[l e1] h1].
  cbn [fst snd] in *. rewrite Hc, Hp.
  destruct (decide (currentID e = Some X)); split; reflexivity.
Qed.

(** C6: for every registry entry and every layout id X, [toggleLayout(X)]
    called twice in a row leaves the current layout id equal to the id
    that was current before the first call: the first call swaps to X, or
    back to the previous id when X is already current. *)
Theorem toggle_twice_restores_current
        (config : Config) (e : t) (h : Heap) (X : string) :
  let '(_, e1, h1) := toggleLayout class_id config e h X in
  let '(_, e2, _) := toggleLayout class_id config e1 h1 X in
  currentID e2 = currentID e
  /\ currentID e1 = (if decide (currentID e = Some X) then previousID e
                     else Some X).
Proof.
  destruct (toggleLayout_ids config e h X) as [Hc1 Hp1].
  destruct (toggleLayout class_id config e h X) as [[l1 e1] h1].
  destruct (toggleLayout_ids config e1 h1 X) as [Hc2 _].
  destruct (toggleLayout class_id config e1 h1 X) as [[l2 e2] h2].
  cbn [fst snd] in *. split; [|exact Hc1].
  rewrite Hc2, Hc1, Hp1.
  destruct (decide (currentID e = Some X)) as [E|N].
  - destruct (decide (previousID e = Some X)) as [E'|_]; congruence.
  - destruct (decide (Some X = Some X)); congruence.
Qed.

Lemma new_ids (config : Config) (px : TSProxy) (uid0 : string) (h : Heap) :
  let e := fst (new class_id config px uid0 h) in
  currentIndex e = Some 0
  /\ currentID e = initial_id config px uid0.
Proof.
  unfold new.
  match goal with
  | |- context [loadLayout class_id ?e0 h ?i] =>
      destruct (loadLayout_ids e0 h i) as (Hc & _ & Hi);
      destruct (loadLayout class_id e0 h i) as [[l e1] h1]
  end.
  cbn [fst snd] in *. split; assumption.
Qed.

Lemma cycleLayout_ids (config : Config) (e : t) (h : Heap) (step : Z) :
  let e' := snd (fst (cycleLayout class_id config e h step)) in
  let idx := match currentIndex e with
             | Some i => wrapIndex (i + step)
                                   (Z.of_nat (length (layoutOrder config)))
             | None => 0
             end in
  currentIndex e' = Some idx
  /\ currentID e' = array_at (layoutOrder config) idx.
Proof.
  unfold cycleLayout.
  match goal with
  | |- context [loadLayout class_id ?e0 h ?i] =>
      destruct (loadLayout_ids e0 h i) as (Hc & _ & Hi);
      destruct (loadLayout class_id e0 h i) as [[l e1] h1]
  end.
  cbn [fst snd] in *. split; assumption.
Qed.

(** C5 (as amended): on a freshly constructed registry entry whose current
    id is the head of the configured order (no class id is persisted, or
    the persisted one is that head), [cycleLayout(+1)] and then
    [cycleLayout(-1)] restore the layout id that was current before the
    two calls, for every configured layout order. *)
Theorem cycle_forth_and_back_from_head
        (config : Config) (px : TSProxy) (uid0 : string) (h : Heap) :
  initial_id config px uid0 = array_at (layoutOrder config) 0 ->
  let '(e0, h0) := new class_id config px uid0 h in
  let '(_, e1, h1) := cycleLayout class_id config e0 h0 1 in
  let '(_, e2, _) := cycleLayout class_id config e1 h1 (-1) in
  currentID e2 = currentID e0.
Proof.
  intros Hhead.
  destruct (new_ids config px uid0 h) as [Hi0 Hc0].
  destruct (new class_id config px uid0 h) as [e0 h0].
  destruct (cycleLayout_ids config e0 h0 1) as [Hi1 _].
  destruct (cycleLayout class_id config e0 h0 1) as [[l1 e1] h1].
  destruct (cycleLayout_ids config e1 h1 (-1)) as [_ Hc2].
  destruct (cycleLayout class_id config e1 h1 (-1)) as [[l2 e2] h2].
  cbn [fst snd] in *.
  rewrite Hc2, Hc0, Hhead, Hi1, Hi0.
  f_equal. unfold wrapIndex.
  set (n := Z.of_nat (length (layoutOrder config))).
  assert (0 <= n) by lia.
  repeat match goal with
         | |- context [?a <? ?b] => destruct (Z.ltb_spec a b)
         | |- context [?a <=? ?b] => destruct (Z.leb_spec a b)
         end; lia.
Qed.

Lemma alloc_fresh (h : Heap) (c : LayoutClass) :
  h !! fst (alloc h c) = None /\ snd (alloc h c) !! fst (alloc h c) = Some c.
Proof.
  unfold alloc. cbn [fst snd]. split.
  - apply not_elem_of_dom, is_fresh.
  - apply lookup_insert_eq.
Qed.

Lemma createLayoutFromId_unknown (h : Heap) (id : string) :
  id ∉ known_ids class_id ->
  createLayoutFromId class_id h (Some id) = alloc h FloatingLayout.
Proof.
  intros Hid. unfold createLayoutFromId.
  repeat match goal with
         | |- context [decide (Some id = Some (class_id ?c))] =>
             destruct (decide (Some id = Some (class_id c))) as [[= E]|_];
             [exfalso; apply Hid; rewrite E; unfold known_ids, known_classes;
              set_solver|]
         end.
  reflexivity.
Qed.

Lemma new_unfold (config : Config) (px : TSProxy) (uid0 : string) (h : Heap) :
  new class_id config px uid0 h =
  let id0 := initial_id config px uid0 in
  ({| currentIndex := Some 0; currentID := id0;
      layouts := {[ property_key id0 :=
                      fst (createLayoutFromId class_id h id0) ]};
      previousID := id0; uid := uid0 |},
   snd (createLayoutFromId class_id h id0)).
Proof.
  unfold new, loadLayout. cbn [layouts currentID]. rewrite lookup_empty.
  destruct (createLayoutFromId class_id h (initial_id config px uid0)).
  reflexivity.
Qed.

Lemma getCurrentLayout_fresh_store
      (config : Config) (px : TSProxy) (h : Heap) (srf : DriverSurfaceImpl.t) :
  DriverSurfaceImpl.ignore srf = false ->
  let id0 := initial_id config px (pretty (DriverSurfaceImpl.screen srf)) in
  let '(layout, _, h') :=
    LayoutStore.getCurrentLayout class_id config px LayoutStore.new h srf in
  (layout, h') = createLayoutFromId class_id h id0.
Proof.
  intros Hi. unfold LayoutStore.getCurrentLayout, LayoutStore.getEntry.
  rewrite Hi. cbn [LayoutStore.store LayoutStore.new].
  rewrite lookup_empty, new_unfold. cbn zeta.
  unfold currentLayout, loadLayout. cbn [layouts currentID].
  rewrite lookup_singleton_eq.
  destruct (createLayoutFromId class_id h _). reflexivity.
Qed.

End RegistryFacts.

(** The constructor restores a persisted class id and leaves
    [currentIndex] at 0: with the monocle layout restored, the second of
    the configured order, [cycleLayout(+1)] moves to index 1, the monocle
    layout again, and [cycleLayout(-1)] to index 0, the tile layout. *)
Lemma cycle_forth_and_back_after_restore :
  let '(e0, h0) :=
    LayoutStoreEntry.new class_name config_tile_monocle
                         proxy_monocle_persisted "0" initial_heap in
  let '(_, e1, h1) :=
    LayoutStoreEntry.cycleLayout class_name config_tile_monocle e0 h0 1 in
  let '(_, e2, _) :=
    LayoutStoreEntry.cycleLayout class_name config_tile_monocle e1 h1 (-1) in
  LayoutStoreEntry.currentID e0 = Some "MonocleLayout"
  /\ LayoutStoreEntry.currentIndex e0 = Some 0
  /\ LayoutStoreEntry.currentID e1 = Some "MonocleLayout"
  /\ LayoutStoreEntry.currentIndex e1 = Some 1
  /\ LayoutStoreEntry.currentID e2 = Some "TileLayout"
  /\ LayoutStoreEntry.currentID e2 <> LayoutStoreEntry.currentID e0.
Proof.
  pose proof (new_ids class_name config_tile_monocle proxy_monocle_persisted
                      "0" initial_heap) as [Hi0 Hc0].
  destruct (LayoutStoreEntry.new class_name config_tile_monocle
              proxy_monocle_persisted "0" initial_heap) as [e0 h0].
  pose proof (cycleLayout_ids class_name config_tile_monocle e0 h0 1)
    as [Hi1 Hc1].
  destruct (LayoutStoreEntry.cycleLayout class_name config_tile_monocle
              e0 h0 1) as [[l1 e1] h1].
  pose proof (cycleLayout_ids class_name config_tile_monocle e1 h1 (-1))
    as [_ Hc2].
  destruct (LayoutStoreEntry.cycleLayout class_name config_tile_monocle
              e1 h1 (-1)) as [[l2 e2] h2].
  cbn [fst snd] in *.
  rewrite Hi0 in Hi1, Hc1. rewrite Hi1 in Hc2.
  rewrite Hc0, Hi0, Hi1, Hc1, Hc2.
  split; [reflexivity|]. split; [reflexivity|]. split; [reflexivity|].
  split; [reflexivity|]. split; [reflexivity|].
  vm_compute. intros [=].
Qed.

Lemma cycle_forth_and_back_from_head_witness :
  LayoutStoreEntry.initial_id config_tile_monocle (mkTSProxy ∅ ∅ ∅) "0"
  = array_at (layoutOrder config_tile_monocle) 0
  /\ (let '(e0, h0) :=
        LayoutStoreEntry.new class_name config_tile_monocle
                             (mkTSProxy ∅ ∅ ∅) "0" initial_heap in
      let '(_, e1, h1) :=
        LayoutStoreEntry.cycleLayout class_name config_tile_monocle
                                     e0 h0 1 in
      let '(_, e2, _) :=
        LayoutStoreEntry.cycleLayout class_name config_tile_monocle
                                     e1 h1 (-1) in
      LayoutStoreEntry.currentID e2 = LayoutStoreEntry.currentID e0).
Proof.
  split; [reflexivity|].
  apply (cycle_forth_and_back_from_head
           class_name config_tile_monocle (mkTSProxy ∅ ∅ ∅) "0"
           initial_heap).
  reflexivity.
Defined.

(** C5, as stated, fails: an entry constructed with a persisted layout
    that is not in the configured order starts on that layout, and
    cycling forth and back walks the configured order only: it ends on
    the head of the order, not on the layout it started from. *)
Lemma cycle_does_not_restore_id_outside_order :
  let '(e0, h0) :=
    LayoutStoreEntry.new class_name config_tile_monocle
                         proxy_spiral_persisted "0" initial_heap in
  let '(_, e1, h1) :=
    LayoutStoreEntry.cycleLayout class_name config_tile_monocle e0 h0 1 in
  let '(_, e2, _) :=
    LayoutStoreEntry.cycleLayout class_name config_tile_monocle e1 h1 (-1) in
  LayoutStoreEntry.currentID e0 = Some "SpiralLayout"
  /\ LayoutStoreEntry.currentID e2 = Some "TileLayout"
  /\ LayoutStoreEntry.currentID e2 <> LayoutStoreEntry.currentID e0.
Proof. vm_compute. repeat split; discriminate. Qed.

(** C7 (as amended): a surface whose ignore flag is set resolves to the
    floating layout singleton, store and heap untouched; a layout class id
    that is not among the known ids resolves to a floating layout too, but
    to an object of its own: [createLayoutFromId] allocates a new
    [FloatingLayout], distinct from every object that existed before and
    so from the singleton, and so does the first resolution of a surface
    whose registry entry starts from such an id, as long as the id names
    no property of [Object.prototype] (an id that does is found in the
    empty cache and never reaches [createLayoutFromId]). *)
Theorem unknown_and_ignored_resolve_to_floating
        (class_id : LayoutClass -> string) :
  (forall config px ls h srf,
      DriverSurfaceImpl.ignore srf = true ->
      LayoutStore.getCurrentLayout class_id config px ls h srf
      = (FloatingLayout_instance, ls, h))
  /\ (forall (h : Heap) (id : string),
        id ∉ LayoutStoreEntry.known_ids class_id ->
        let '(layout, h') :=
          LayoutStoreEntry.createLayoutFromId class_id h (Some id) in
        h' !! layout = Some FloatingLayout
        /\ h !! layout = None
        /\ (is_Some (h !! FloatingLayout_instance) ->
            layout <> FloatingLayout_instance))
  /\ (forall config px (h : Heap) srf (id : string),
        DriverSurfaceImpl.ignore srf = false ->
        LayoutStoreEntry.initial_id
          config px (pretty (DriverSurfaceImpl.screen srf)) = Some id ->
        id ∉ LayoutStoreEntry.known_ids class_id ->
        id ∉ Object_prototype_properties ->
        let '(layout, _, h') :=
          LayoutStore.getCurrentLayout class_id config px LayoutStore.new
                                       h srf in
        h' !! layout = Some FloatingLayout
        /\ h !! layout = None
        /\ (is_Some (h !! FloatingLayout_instance) ->
            layout <> FloatingLayout_instance)).
Proof.
  assert (Hcreate : forall (h : Heap) (id : string),
             id ∉ LayoutStoreEntry.known_ids class_id ->
             let '(layout, h') :=
               LayoutStoreEntry.createLayoutFromId class_id h (Some id) in
             h' !! layout = Some FloatingLayout
             /\ h !! layout = None
             /\ (is_Some (h !! FloatingLayout_instance) ->
                 layout <> FloatingLayout_instance)).
  { intros h id Hid. rewrite (createLayoutFromId_unknown class_id h id Hid).
    destruct (alloc_fresh h FloatingLayout) as [Hnew Hcls].
    destruct (alloc h FloatingLayout) as [layout h']. cbn [fst snd] in *.
    split; [exact Hcls|]. split; [exact Hnew|].
    intros [c Hc] ->. congruence. }
  split; [|split].
  - intros config px ls h srf Hi. unfold LayoutStore.getCurrentLayout.
    rewrite Hi. reflexivity.
  - exact Hcreate.
  - intros config px h srf id Hi Hid Hunk _.
    pose proof (getCurrentLayout_fresh_store class_id config px h srf Hi)
      as Hfresh.
    destruct (LayoutStore.getCurrentLayout class_id config px
                LayoutStore.new h srf) as [[layout ls'] h'].
    rewrite Hid in Hfresh. specialize (Hcreate h id Hunk).
    rewrite <- Hfresh in Hcreate. exact Hcreate.
Qed.

Lemma unknown_and_ignored_resolve_to_floating_witness :
  let px := mkTSProxy ∅ ∅ ∅ in
  DriverSurfaceImpl.ignore surface_screen0 = false
  /\ ("NoSuchLayout" ∉ LayoutStoreEntry.known_ids class_name)
  /\ ("NoSuchLayout" ∉ Object_prototype_properties)
  /\ (let '(layout, _, h') :=
        LayoutStore.getCurrentLayout class_name config_unknown_first px
                                     LayoutStore.new initial_heap
                                     surface_screen0 in
      h' !! layout = Some FloatingLayout
      /\ initial_heap !! layout = None
      /\ (is_Some (initial_heap !! FloatingLayout_instance) ->
          layout <> FloatingLayout_instance))
  /\ LayoutStore.getCurrentLayout class_name config_unknown_first px
                                  LayoutStore.new initial_heap surface_ignored
     = (FloatingLayout_instance, LayoutStore.new, initial_heap).
Proof.
  intros px.
  destruct (unknown_and_ignored_resolve_to_floating class_name)
    as (Hign & _ & Hfirst).
  assert (Hunk : "NoSuchLayout" ∉ LayoutStoreEntry.known_ids class_name).
  { unfold LayoutStoreEntry.known_ids, LayoutStoreEntry.known_classes.
    cbn. rewrite !not_elem_of_cons. repeat split; try discriminate.
    apply not_elem_of_nil. }
  assert (Hown : "NoSuchLayout" ∉ Object_prototype_properties).
  { unfold Object_prototype_properties.
    rewrite !not_elem_of_cons. repeat split; try discriminate.
    apply not_elem_of_nil. }
  split; [reflexivity|]. split; [exact Hunk|]. split; [exact Hown|]. split.
  - apply (Hfirst config_unknown_first px initial_heap surface_screen0
                  "NoSuchLayout");
      [reflexivity | reflexivity | exact Hunk | exact Hown].
  - apply Hign. reflexivity.
Defined.

(** C7, as stated, fails: with a first layout id that names no class, the
    ignored surface resolves to the singleton while the tiled surface of
    the same screen resolves to another object, a floating layout that is
    not the singleton. *)
Lemma unknown_id_is_not_the_singleton :
  let px := mkTSProxy ∅ ∅ ∅ in
  let ignored :=
    LayoutStore.getCurrentLayout class_name config_unknown_first px
                                 LayoutStore.new initial_heap
                                 surface_ignored in
  let unknown :=
    LayoutStore.getCurrentLayout class_name config_unknown_first px
                                 LayoutStore.new initial_heap
                                 surface_screen0 in
  fst (fst ignored) = FloatingLayout_instance
  /\ snd unknown !! fst (fst unknown) = Some FloatingLayout
  /\ fst (fst unknown) <> FloatingLayout_instance
  /\ fst (fst unknown) <> fst (fst ignored).
Proof.
  vm_compute. repeat split; discriminate.
Qed.

(** ** The window wrapper *)


Lemma clip_idempotent (v lo hi : Z) :
  lo <= hi -> clip (clip v lo hi) lo hi = clip v lo hi.
Proof.
  intros H. unfold clip.
  repeat match goal with
         | |- context [?a <? ?b] => destruct (Z.ltb_spec a b)
         end; lia.
Qed.

Section WindowFacts.

Import DriverWindowImpl.

Variable includes : Rect.t -> Rect.t -> bool.
Variable differs : Rect.t -> Rect.t -> bool.

Lemma frame_untouched_refl σ : frame_untouched σ σ.
Proof. split; reflexivity. Qed.

Lemma frame_untouched_trans σ1 σ2 σ3 :
  frame_untouched σ1 σ2 -> frame_untouched σ2 σ3 -> frame_untouched σ1 σ3.
Proof. intros [A B] [C D]. split; congruence. Qed.

Lemma geometry_writes_snoc (l : list ClientWrite) (ev : ClientWrite) :
  geometry_writes (l ++ [ev])
  = geometry_writes l ++ (if is_geometry_write ev then [ev] else []).
Proof.
  unfold geometry_writes. rewrite List.filter_app. cbn.
  destruct (is_geometry_write ev); reflexivity.
Qed.

Lemma with_win_untouched (f : t -> t) σ :
  (forall w, client (f w) = client w) ->
  frame_untouched σ (with_win f σ).
Proof. intros H. split; cbn; [rewrite H|]; reflexivity. Qed.

Lemma write_client_untouched (f : KWinClient.t -> KWinClient.t) ev σ :
  (forall c, geometry_view (f c) = geometry_view c) ->
  is_geometry_write ev = false ->
  frame_untouched σ (write_client f ev σ).
Proof.
  intros Hf Hev. split; cbn; [apply Hf|].
  rewrite geometry_writes_snoc, Hev. apply app_nil_r.
Qed.

Ltac untouched :=
  lazymatch goal with
  | |- frame_untouched ?s ?s => apply frame_untouched_refl
  | |- frame_untouched ?s (if ?b then _ else _) => destruct b; untouched
  | |- frame_untouched ?s (with_win ?f ?x) =>
      apply (frame_untouched_trans s x);
      [untouched | apply with_win_untouched; reflexivity]
  | |- frame_untouched ?s (write_client ?f ?ev ?x) =>
      apply (frame_untouched_trans s x);
      [untouched
      | apply write_client_untouched; [intros; reflexivity | reflexivity]]
  end.

Lemma commit_noBorder_untouched nb σ :
  frame_untouched σ (commit_noBorder nb σ).
Proof. unfold commit_noBorder. cbv zeta. untouched. Qed.







Lemma adjustGeometry_settled (w : t) (g : Rect.t) (x y : Z) :
  (KWinClient.resizeable (client w) = true ->
   KWinClient.sz_width (KWinClient.minSize (client w))
   <= KWinClient.sz_width (KWinClient.maxSize (client w))
   /\ KWinClient.sz_height (KWinClient.minSize (client w))
      <= KWinClient.sz_height (KWinClient.maxSize (client w))) ->
  adjustGeometry w (Rect.mk x y (Rect.width (adjustGeometry w g))
                            (Rect.height (adjustGeometry w g)))
  = Rect.mk x y (Rect.width (adjustGeometry w g))
            (Rect.height (adjustGeometry w g)).
Proof.
  intros Hh. unfold adjustGeometry.
  destruct (KWinClient.resizeable (client w)); cbn; [|reflexivity].
  destruct Hh as [Hw Hht]; [reflexivity|].
  rewrite !clip_idempotent by assumption. reflexivity.
Qed.


End WindowFacts.





(** ** The re-entrancy guard *)

Section GuardFacts.

Import DriverImpl.

(** A callback that finds the guard set returns at once. *)
Lemma enter_while_entered (callback : t -> option outcome) (d : t) :
  entered d = true -> enter callback d = Some d.
Proof. intros H. unfold enter. rewrite H. reflexivity. Qed.

Lemma call_all_while_entered (fuel : nat) (hs : list handler) (d : t) :
  entered d = true ->
  call_all (fun h d' => enter (run_body (emit fuel) h) d') hs d = Some d.
Proof.
  intros H. induction hs as [|h hs IH]; cbn [call_all]; [reflexivity|].
  rewrite enter_while_entered by exact H. exact IH.
Qed.

(** A notification that arrives while the guard is set changes nothing. *)
Lemma emit_while_entered (fuel : nat) (signal : string) (d : t) :
  entered d = true -> emit (S fuel) signal d = Some d.
Proof. intros H. cbn [emit]. apply call_all_while_entered, H. Qed.

(** Under the guard a handler body runs its own steps only: every signal
    it raises is dropped. *)
Lemma run_body_guarded (fuel : nat) (body : handler) : forall d : t,
  entered d = true ->
  exists thrown,
    run_body (emit (S fuel)) body d
    = Some (mk true (registeredConnections d)
               (ran d ++ guarded_steps body) (log d), thrown).
Proof.
  induction body as [|s rest IH]; intros d H.
  - exists None. cbn. rewrite app_nil_r. destruct d; cbn in *.
    rewrite H. reflexivity.
  - destruct s as [name|signal|name message].
    + cbn [run_body]. destruct (IH (record_step name d) H) as [thrown E].
      exists thrown. rewrite E. unfold guarded_steps.
      cbn [own_steps fmap list_fmap record_step registeredConnections ran log
           entered].
      rewrite H, <- app_assoc. reflexivity.
    + cbn [run_body]. rewrite emit_while_entered by exact H.
      destruct (IH d H) as [thrown E]. exists thrown. rewrite E.
      reflexivity.
    + exists (Some (name, message)). cbn. rewrite app_nil_r.
      destruct d; cbn in *. rewrite H. reflexivity.
Qed.

(** A callback that finds the guard clear runs its handler under the guard
    and clears the guard again, whether the handler throws or not. *)
Lemma enter_runs_guarded (fuel : nat) (body : handler) (d : t) :
  entered d = false ->
  exists d',
    enter (run_body (emit (S fuel)) body) d = Some d'
    /\ entered d' = false
    /\ ran d' = ran d ++ guarded_steps body
    /\ registeredConnections d' = registeredConnections d.
Proof.
  intros H. unfold enter. rewrite H.
  destruct (run_body_guarded fuel body (set_entered true d) eq_refl)
    as [thrown E].
  rewrite E. destruct thrown as [[name message]|];
    eexists; (split; [reflexivity|]); repeat split.
Qed.

Lemma call_all_runs_guarded (fuel : nat) (hs : list handler) : forall d : t,
  entered d = false ->
  exists d',
    call_all (fun h d' => enter (run_body (emit (S fuel)) h) d') hs d
    = Some d'
    /\ entered d' = false
    /\ ran d' = ran d ++ concat (guarded_steps <$> hs)
    /\ registeredConnections d' = registeredConnections d.
Proof.
  induction hs as [|h hs IH]; intros d H; cbn [call_all].
  - exists d. cbn. rewrite app_nil_r. repeat split. exact H.
  - destruct (enter_runs_guarded fuel h d H) as (d1 & E1 & H1 & R1 & C1).
    rewrite E1. destruct (IH d1 H1) as (d2 & E2 & H2 & R2 & C2).
    exists d2. split; [exact E2|]. split; [exact H2|]. split.
    + rewrite R2, R1. cbn. rewrite app_assoc. reflexivity.
    + congruence.
Qed.

(** C3: a notification that arrives while the guard flag is set is
    dropped, neither run nor kept for later: the state of the driver is
    left as it was.  A notification that arrives while the flag is clear
    runs the handlers bound to its signal; every step they run sees the
    flag set, no step of a handler bound to a signal raised from within
    them is run, and the flag is clear again when the notification
    returns. *)
Theorem reentrant_notification_dropped
        (fuel : nat) (signal : string) (d : t) :
  (entered d = true -> emit (S fuel) signal d = Some d)
  /\ (entered d = false ->
      exists d',
        emit (S (S fuel)) signal d = Some d'
        /\ entered d' = false
        /\ ran d' = ran d ++ concat (guarded_steps <$> handlers_of signal d)
        /\ (forall step, step ∈ concat (guarded_steps <$> handlers_of signal d)
                         -> snd step = true)
        /\ registeredConnections d' = registeredConnections d).
Proof.
  split.
  - apply emit_while_entered.
  - intros H. cbn [emit].
    destruct (call_all_runs_guarded fuel (handlers_of signal d) d H)
      as (d' & E & H' & R & C).
    exists d'. repeat split; try assumption.
    intros step Hin. apply list_elem_of_In, in_concat in Hin.
    destruct Hin as (l & Hl & Hs).
    apply list_elem_of_In, list_elem_of_fmap in Hl as (h & -> & _).
    apply list_elem_of_In, list_elem_of_fmap in Hs as (name & -> & _).
    reflexivity.
Qed.

End GuardFacts.

Lemma reentrant_notification_dropped_witness :
  DriverImpl.entered driver_feedback = false
  /\ (exists d',
        DriverImpl.emit 2 "frameGeometryChanged" driver_feedback = Some d'
        /\ DriverImpl.entered d' = false
        /\ DriverImpl.ran d' = [("arrange", true); ("done", true)])
  /\ DriverImpl.emit 1 "frameGeometryChanged"
                     (DriverImpl.set_entered true driver_feedback)
     = Some (DriverImpl.set_entered true driver_feedback).
Proof.
  split; [reflexivity|]. split.
  - destruct (reentrant_notification_dropped
                0 "frameGeometryChanged" driver_feedback) as [_ H].
    destruct (H eq_refl) as (d' & E & He & Hr & _).
    exists d'. split; [exact E|]. split; [exact He|]. exact Hr.
  - destruct (reentrant_notification_dropped
                0 "frameGeometryChanged"
                (DriverImpl.set_entered true driver_feedback)) as [H _].
    apply H. reflexivity.
Defined.

(** * Further properties of the modelled code *)

(** ** The stair layout part, continued *)

Section StairMore.

Import StairLayoutPart.

Lemma executeAction_space_bounds (p : t) (a : Action) :
  16 <= space p <= 160 ->
  16 <= space (fst (executeAction p a)) <= 160.
Proof. intros H. destruct a; cbn; lia. Qed.

Lemma executeAction_space_mod8 (p : t) (a : Action) :
  space p mod 8 = 0 -> space (fst (executeAction p a)) mod 8 = 0.
Proof.
  intros H. apply Z.mod_divide in H; [|lia]. destruct H as [k Hk].
  destruct a; cbn; try (rewrite Hk; apply Z_mod_mult).
  - destruct (Z.min_spec 160 (space p + 8)) as [[_ ->]|[_ ->]];
      [reflexivity|].
    rewrite Hk. replace (k * 8 + 8) with ((k + 1) * 8) by lia.
    apply Z_mod_mult.
  - destruct (Z.max_spec 16 (space p - 8)) as [[_ ->]|[_ ->]];
      [|reflexivity].
    rewrite Hk. replace (k * 8 - 8) with ((k - 1) * 8) by lia.
    apply Z_mod_mult.
Qed.

(** X1: the step of a stair part stays within [16, 160] and a multiple of
    8 under every run of actions, from the step 24 of a new part on; an
    action other than the two master-count actions leaves the part as it
    is and is handed to its default effect. *)
Theorem stair_step_stays_in_bounds (actions : list Action) :
  16 <= space (stair_run new actions) <= 160
  /\ space (stair_run new actions) mod 8 = 0
  /\ (forall (p : t) (a : Action),
        a = DecreaseMasterAreaWindowCount
        \/ a = IncreaseMasterAreaWindowCount
        \/ executeAction p a = (p, true)).
Proof.
  assert (Hinv : forall p, (16 <= space p <= 160 /\ space p mod 8 = 0) ->
                           16 <= space (stair_run p actions) <= 160
                           /\ space (stair_run p actions) mod 8 = 0).
  { unfold stair_run. induction actions as [|a rest IH]; intros p [Hb Hm].
    - split; assumption.
    - cbn [foldl]. apply IH. split.
      + apply executeAction_space_bounds, Hb.
      + apply executeAction_space_mod8, Hm. }
  destruct (Hinv new) as [Hb Hm]; [split; [cbn; lia | reflexivity]|].
  split; [exact Hb|]. split; [exact Hm|].
  intros p a. destruct a; auto.
Qed.

(** X2: with a step that is not negative, every geometry that [apply]
    returns starts at or right of and below the origin of the area and
    ends exactly at the right and bottom edges of the area: the tiles of
    a stair share their bottom-right corner.  Their widths and heights
    are not negative as long as the step times the number of windows but
    one fits the width and the height of the area.  Beyond that a tile
    starts right of the area, with a negative width: of 39 windows at
    step 24 in the area (0,0,900,600) the first is placed at
    (912,0,-12,600). *)
Theorem stair_tiles_share_corner
        (p : t) (area : Rect.t) (tileables : list EngineWindow) :
  0 <= space p ->
  let n := Z.of_nat (length tileables) in
  Forall (fun g => Rect.x area <= Rect.x g
                   /\ Rect.y area <= Rect.y g
                   /\ Rect.maxX g = Rect.maxX area
                   /\ Rect.maxY g = Rect.maxY area)
         (fst (apply p area tileables))
  /\ (space p * (n - 1) <= Rect.width area ->
      space p * (n - 1) <= Rect.height area ->
      Forall (fun g => 0 <= Rect.width g /\ 0 <= Rect.height g)
             (fst (apply p area tileables)))
  /\ head (fst (apply new (Rect.mk 0 0 900 600)
                      (replicate 39 (mkEngineWindow "w" Undecided
                                                    (Rect.mk 0 0 0 0)))))
     = Some (Rect.mk 912 0 (-12) 600).
Proof.
  intros Hs n. split; [|split].
  - rewrite apply_imap. cbn [fst]. apply Forall_lookup.
    intros i g Hg. rewrite list_lookup_imap in Hg.
    destruct (tileables !! i) as [w|] eqn:Hw; [|discriminate].
    apply lookup_lt_Some in Hw. injection Hg as <-.
    unfold tile_rect, Rect.maxX, Rect.maxY. cbn. nia.
  - intros Hwd Hht. rewrite apply_imap. cbn [fst]. apply Forall_lookup.
    intros i g Hg. rewrite list_lookup_imap in Hg.
    destruct (tileables !! i) as [w|] eqn:Hw; [|discriminate].
    apply lookup_lt_Some in Hw. injection Hg as <-.
    unfold tile_rect. cbn. fold n. subst n. nia.
  - reflexivity.
Qed.

Lemma stair_tiles_share_corner_witness :
  0 <= space new
  /\ Forall (fun g => Rect.x (Rect.mk 0 0 900 600) <= Rect.x g
                      /\ Rect.y (Rect.mk 0 0 900 600) <= Rect.y g
                      /\ Rect.maxX g = Rect.maxX (Rect.mk 0 0 900 600)
                      /\ Rect.maxY g = Rect.maxY (Rect.mk 0 0 900 600))
            (fst (apply new (Rect.mk 0 0 900 600)
                        [mkEngineWindow "a" Undecided (Rect.mk 0 0 0 0);
                         mkEngineWindow "b" Floating (Rect.mk 5 5 10 10)]))
  /\ Forall (fun g => 0 <= Rect.width g /\ 0 <= Rect.height g)
            (fst (apply new (Rect.mk 0 0 900 600)
                        [mkEngineWindow "a" Undecided (Rect.mk 0 0 0 0);
                         mkEngineWindow "b" Floating (Rect.mk 5 5 10 10)])).
Proof.
  split; [vm_compute; discriminate|].
  destruct (stair_tiles_share_corner
              new (Rect.mk 0 0 900 600)
              [mkEngineWindow "a" Undecided (Rect.mk 0 0 0 0);
               mkEngineWindow "b" Floating (Rect.mk 5 5 10 10)])
    as (H1 & H2 & _); [vm_compute; discriminate|].
  split; [exact H1|]. apply H2; vm_compute; discriminate.
Defined.

(** X3: [apply] leaves every window tiled, with its id and its place in
    the list kept and with the geometry that is returned for it; applying
    the part again to the windows it has left changes nothing. *)
Theorem stair_apply_settles
        (p : t) (area : Rect.t) (tileables : list EngineWindow) :
  let '(res, tiles) := apply p area tileables in
  win_id <$> tiles = win_id <$> tileables
  /\ geometry <$> tiles = res
  /\ Forall (fun w => state w = Tiled) tiles
  /\ apply p area tiles = (res, tiles).
Proof.
  rewrite apply_imap.
  set (rect := fun k : nat =>
                 tile_rect (space p) (Z.of_nat (length tileables)) area
                           (Z.of_nat k)).
  split; [|split; [|split]].
  - rewrite fmap_imap, <- (imap_const win_id tileables).
    apply imap_ext. intros; reflexivity.
  - rewrite fmap_imap. apply imap_ext. intros; reflexivity.
  - apply Forall_lookup. intros i w Hw. rewrite list_lookup_imap in Hw.
    destruct (tileables !! i); [|discriminate]. injection Hw as <-.
    reflexivity.
  - rewrite apply_imap, length_imap. fold rect. clearbody rect.
    f_equal; apply list_eq; intros i; rewrite !list_lookup_imap;
      destruct (tileables !! i); reflexivity.
Qed.

End StairMore.

(** ** The tabbed-master layout, continued *)

Section TabbedMasterMore.

Import TabbedMasterLayout.

Context {Ratio : Type}.
Variable slide : Ratio -> Ratio -> Ratio.
Variable clipRatio : Ratio -> Ratio -> Ratio -> Ratio.
Variable hundredths : Z -> Ratio.

Local Abbreviation exec := (executeAction slide clipRatio hundredths).
Local Abbreviation run := (tabbed_run slide clipRatio hundredths).

Lemma exec_count (l : t (Ratio:=Ratio)) (a : Action) :
  get_numMasterTiles (fst (exec l a))
  = match a with
    | IncreaseMasterAreaWindowCount =>
        if get_numMasterTiles l <? 10 then get_numMasterTiles l + 1
        else get_numMasterTiles l
    | DecreaseMasterAreaWindowCount =>
        if 0 <? get_numMasterTiles l then get_numMasterTiles l - 1
        else get_numMasterTiles l
    | _ => get_numMasterTiles l
    end.
Proof.
  destruct a; try reflexivity; cbn [executeAction fst].
  - destruct (get_numMasterTiles l <? 10); reflexivity.
  - destruct (0 <? get_numMasterTiles l); reflexivity.
Qed.

Lemma run_invariant (P : t (Ratio:=Ratio) -> Prop) :
  (forall l a, P l -> P (fst (exec l a))) ->
  forall actions l, P l -> P (run l actions).
Proof.
  intros Hstep. unfold tabbed_run.
  induction actions as [|a rest IH]; intros l Hl; [exact Hl|].
  cbn [foldl]. apply IH, Hstep, Hl.
Qed.

(** X4: a master count between 0 and 10 stays between 0 and 10 under
    every run of actions on the tabbed-master layout. *)
Theorem master_count_stays_in_bounds
        (l : t (Ratio:=Ratio)) (actions : list Action) :
  0 <= get_numMasterTiles l <= 10 ->
  0 <= get_numMasterTiles (run l actions) <= 10.
Proof.
  apply (run_invariant (fun q => 0 <= get_numMasterTiles q <= 10)).
  intros q a Hq. rewrite exec_count.
  destruct a; try exact Hq.
  - destruct (Z.ltb_spec (get_numMasterTiles q) 10); lia.
  - destruct (Z.ltb_spec 0 (get_numMasterTiles q)); lia.
Qed.


(** X6: increasing the master count and then decreasing it restores the
    count when it started between 0 and 9, and restores the whole layout
    when its state mirrored the count; at 10 the pair of actions ends
    at 9. *)
Theorem increase_then_decrease_restores (l : t (Ratio:=Ratio)) :
  let back :=
    fst (exec (fst (exec l IncreaseMasterAreaWindowCount))
              DecreaseMasterAreaWindowCount) in
  (0 <= get_numMasterTiles l < 10 ->
   get_numMasterTiles back = get_numMasterTiles l
   /\ (numMasterTiles (lstate l) = get_numMasterTiles l -> back = l))
  /\ (get_numMasterTiles l = 10 -> get_numMasterTiles back = 9).
Proof.
  intros back. subst back. split.
  - intros [H0 H10]. rewrite !exec_count.
    destruct (Z.ltb_spec (get_numMasterTiles l) 10); [|lia].
    destruct (Z.ltb_spec 0 (get_numMasterTiles l + 1)); [|lia].
    split; [lia|]. intros Hm. cbn [executeAction fst].
    destruct (Z.ltb_spec (get_numMasterTiles l) 10); [|lia].
    rewrite get_set_numMasterTiles.
    destruct (Z.ltb_spec 0 (get_numMasterTiles l + 1)); [|lia].
    replace (get_numMasterTiles l + 1 - 1) with (get_numMasterTiles l)
      by lia.
    unfold get_numMasterTiles in *.
    destruct l as [[[pr se ps ra ga] an] [ro pa nm] u]. cbn in *.
    subst nm. reflexivity.
  - intros H. rewrite !exec_count, H. reflexivity.
Qed.

(** X7: the tabbed-master layout never passes an action on to its stair
    part: under every run of actions the stair part keeps the step it was
    built with, and the gaps stay as configured.  An action that is not a
    master-count action leaves the count as it is, and a master-count
    action leaves the ratio and both rotations as they are. *)
Theorem tabbed_master_frame (l : t (Ratio:=Ratio)) (actions : list Action) :
  primary (inner (parts (run l actions))) = primary (inner (parts l))
  /\ gap (inner (parts (run l actions))) = gap (inner (parts l))
  /\ inner (secondary (inner (parts (run l actions))))
     = inner (secondary (inner (parts l)))
  /\ (forall a : Action,
        a <> IncreaseMasterAreaWindowCount ->
        a <> DecreaseMasterAreaWindowCount ->
        get_numMasterTiles (fst (exec l a)) = get_numMasterTiles l)
  /\ (forall a : Action,
        a = IncreaseMasterAreaWindowCount
        \/ a = DecreaseMasterAreaWindowCount ->
        get_masterRatio (fst (exec l a)) = get_masterRatio l
        /\ angle (parts (fst (exec l a))) = angle (parts l)
        /\ angle (secondary (inner (parts (fst (exec l a)))))
           = angle (secondary (inner (parts l)))).
Proof.
  assert (Hrun :
            primary (inner (parts (run l actions))) = primary (inner (parts l))
            /\ gap (inner (parts (run l actions))) = gap (inner (parts l))
            /\ inner (secondary (inner (parts (run l actions))))
               = inner (secondary (inner (parts l)))).
  { apply (run_invariant
             (fun q => primary (inner (parts q)) = primary (inner (parts l))
                       /\ gap (inner (parts q)) = gap (inner (parts l))
                       /\ inner (secondary (inner (parts q)))
                          = inner (secondary (inner (parts l)))));
      [|repeat split].
    intros q a Hq. destruct a; cbn [executeAction fst]; try exact Hq.
    - destruct (get_numMasterTiles q <? 10); exact Hq.
    - destruct (0 <? get_numMasterTiles q); exact Hq. }
  destruct Hrun as (H1 & H2 & H3).
  split; [exact H1|]. split; [exact H2|]. split; [exact H3|]. split.
  - intros a Hi Hd. rewrite exec_count. destruct a; congruence.
  - intros a [-> | ->]; cbn [executeAction fst].
    + destruct (get_numMasterTiles l <? 10); repeat split.
    + destruct (0 <? get_numMasterTiles l); repeat split.
Qed.

End TabbedMasterMore.

Lemma master_count_stays_in_bounds_witness :
  0 <= TabbedMasterLayout.get_numMasterTiles (restored_layout 9) <= 10
  /\ 0 <= TabbedMasterLayout.get_numMasterTiles
            (tabbed_run slideZ clip id (restored_layout 9)
                        [IncreaseMasterAreaWindowCount;
                         IncreaseMasterAreaWindowCount; Rotate]) <= 10.
Proof.
  split; [vm_compute; split; discriminate|].
  apply master_count_stays_in_bounds. vm_compute. split; discriminate.
Defined.

Lemma increase_then_decrease_restores_witness :
  0 <= TabbedMasterLayout.get_numMasterTiles (restored_layout 3) < 10
  /\ fst (TabbedMasterLayout.executeAction
            slideZ clip id
            (fst (TabbedMasterLayout.executeAction
                    slideZ clip id (restored_layout 3)
                    IncreaseMasterAreaWindowCount))
            DecreaseMasterAreaWindowCount)
     = restored_layout 3.
Proof.
  split; [vm_compute; split; [discriminate | reflexivity]|].
  destruct (increase_then_decrease_restores slideZ clip id
                                            (restored_layout 3)) as [H _].
  apply H; [vm_compute; split; [discriminate | reflexivity] | reflexivity].
Defined.

Lemma tabbed_master_frame_witness :
  Rotate <> IncreaseMasterAreaWindowCount
  /\ Rotate <> DecreaseMasterAreaWindowCount
  /\ TabbedMasterLayout.get_numMasterTiles
       (fst (TabbedMasterLayout.executeAction slideZ clip id
                                              (restored_layout 3) Rotate))
     = 3.
Proof.
  split; [discriminate|]. split; [discriminate|].
  destruct (tabbed_master_frame slideZ clip id (restored_layout 3) [])
    as (_ & _ & _ & H & _).
  apply (H Rotate); discriminate.
Defined.

(** ** The layout registry, continued *)

Section RegistryMore.

Import LayoutStoreEntry.

Variable class_id : LayoutClass -> string.

Lemma createLayoutFromId_alloc (h : Heap) (id : option string) :
  exists c, createLayoutFromId class_id h id = alloc h c.
Proof.
  unfold createLayoutFromId.
  repeat match goal with
         | |- context [decide ?P] => destruct (decide P)
         end; eexists; reflexivity.
Qed.

Lemma alloc_subseteq (h : Heap) (c : LayoutClass) : h ⊆ snd (alloc h c).
Proof.
  unfold alloc. cbn [snd]. apply insert_subseteq, not_elem_of_dom, is_fresh.
Qed.

Lemma loadLayout_cached (e : t) (h : Heap) (ID : option string) :
  let '(layout, e1, h1) := loadLayout class_id e h ID in
  layouts e1 !! property_key ID = Some layout
  /\ (forall k v, layouts e !! k = Some v -> layouts e1 !! k = Some v)
  /\ h ⊆ h1
  /\ uid e1 = uid e.
Proof.
  unfold loadLayout.
  destruct (layouts e !! property_key ID) as [layout|] eqn:E.
  - repeat split; auto.
  - destruct (createLayoutFromId_alloc h ID) as [c Hc]. rewrite Hc.
    pose proof (alloc_subseteq h c) as Hsub.
    destruct (alloc h c) as [layout h1]. cbn [layouts uid snd] in *.
    split; [apply lookup_insert_eq|]. split; [|split; [exact Hsub|reflexivity]].
    intros k v Hk. rewrite lookup_insert_ne; [exact Hk|congruence].
Qed.

Lemma loadLayout_hit (e : t) (h : Heap) (ID : option string) (layout : loc) :
  layouts e !! property_key ID = Some layout ->
  loadLayout class_id e h ID = (layout, e, h).
Proof. intros H. unfold loadLayout. rewrite H. reflexivity. Qed.

Lemma loadLayout_twice (e : t) (h : Heap) (ID : option string) :
  let '(layout, e1, h1) := loadLayout class_id e h ID in
  loadLayout class_id e1 h1 ID = (layout, e1, h1).
Proof.
  pose proof (loadLayout_cached e h ID) as H.
  destruct (loadLayout class_id e h ID) as [[layout e1] h1].
  destruct H as (H & _). apply loadLayout_hit, H.
Qed.

(** X8: [loadLayout] caches: loading an id a second time yields the very
    object of the first time and leaves entry and heap as they are; what
    the cache held before is still held, and no layout object that
    existed is replaced. *)
Theorem loadLayout_is_cached (e : t) (h : Heap) (ID : option string) :
  let '(layout, e1, h1) := loadLayout class_id e h ID in
  loadLayout class_id e1 h1 ID = (layout, e1, h1)
  /\ layouts e1 !! property_key ID = Some layout
  /\ (forall k v, layouts e !! k = Some v -> layouts e1 !! k = Some v)
  /\ h ⊆ h1.
Proof.
  pose proof (loadLayout_twice e h ID) as H2.
  pose proof (loadLayout_cached e h ID) as Hc.
  destruct (loadLayout class_id e h ID) as [[layout e1] h1].
  destruct Hc as (H1 & H3 & H4 & _).
  split; [exact H2|]. split; [exact H1|]. split; [exact H3 | exact H4].
Qed.

(** X9: when the layout classes have distinct ids, [createLayoutFromId]
    creates an object of exactly the class whose id it is given, for each
    of the eight classes (the id of the floating layout is not compared
    and falls through to the floating layout); the object is a new one
    and no object that existed is replaced. *)
Theorem createLayoutFromId_by_class (h : Heap) (c : LayoutClass) :
  (forall c1 c2, class_id c1 = class_id c2 -> c1 = c2) ->
  let '(layout, h1) := createLayoutFromId class_id h (Some (class_id c)) in
  h1 !! layout = Some c /\ h !! layout = None /\ h ⊆ h1.
Proof.
  intros Hinj.
  assert (E : createLayoutFromId class_id h (Some (class_id c)) = alloc h c).
  { unfold createLayoutFromId.
    repeat match goal with
           | |- context [decide (Some (class_id c) = Some (class_id ?c'))] =>
               destruct (decide (Some (class_id c) = Some (class_id c')))
                 as [[= ?%Hinj]|?];
               [subst c; reflexivity|]
           end.
    destruct c; first [reflexivity | congruence]. }
  rewrite E. pose proof (alloc_fresh h c) as [Hn Hc].
  pose proof (alloc_subseteq h c) as Hs.
  destruct (alloc h c) as [layout h1]. cbn [fst snd] in *. auto.
Qed.

End RegistryMore.

Lemma createLayoutFromId_by_class_witness :
  (forall c1 c2, class_name c1 = class_name c2 -> c1 = c2)
  /\ (let '(layout, h1) :=
        LayoutStoreEntry.createLayoutFromId
          class_name initial_heap (Some (class_name SpiralLayout)) in
      h1 !! layout = Some SpiralLayout
      /\ initial_heap !! layout = None /\ initial_heap ⊆ h1).
Proof.
  assert (Hinj : forall c1 c2, class_name c1 = class_name c2 -> c1 = c2)
    by (intros [] []; cbn; intros [=]; reflexivity).
  split; [exact Hinj|].
  apply (createLayoutFromId_by_class class_name initial_heap SpiralLayout
                                     Hinj).
Defined.

Section RegistryOrder.

Import LayoutStoreEntry.

Variable class_id : LayoutClass -> string.

Lemma indexOf_from_spec (arr : list string) (x : option string) : forall i,
  (indexOf_from arr x i = -1 /\ (0 <= i -> forall a, a ∈ arr -> x <> Some a))
  \/ (exists k : nat,
        indexOf_from arr x i = i + Z.of_nat k
        /\ (arr !! k : option string) = x
        /\ (k < length arr)%nat
        /\ forall j : nat, (j < k)%nat -> (arr !! j : option string) <> x).
Proof.
  induction arr as [|a rest IH]; intros i; cbn [indexOf_from].
  - left. split; [reflexivity|]. intros _ a Ha. inversion Ha.
  - destruct (decide (x = Some a)) as [->|N].
    + right. exists 0%nat. repeat split; [lia | cbn; lia | intros j Hj; lia].
    + destruct (IH (i + 1)) as [[E H]|(k & E & Hk & Hlen & Hfirst)].
      * left. split; [exact E|]. intros Hi b Hb.
        apply elem_of_cons in Hb as [->|Hb]; [exact N|].
        apply H; [lia | exact Hb].
      * right. exists (S k). repeat split.
        -- rewrite E. lia.
        -- exact Hk.
        -- cbn. lia.
        -- intros [|j] Hj; cbn; [congruence | apply Hfirst; lia].
Qed.

Lemma array_at_nat (arr : list string) (k : nat) :
  array_at arr (Z.of_nat k) = arr !! k.
Proof.
  unfold array_at. destruct (Z.ltb_spec (Z.of_nat k) 0); [lia|].
  rewrite Nat2Z.id. reflexivity.
Qed.

Lemma toggleLayout_index (config : Config) (e : t) (h : Heap) (X : string) :
  let e' := snd (fst (toggleLayout class_id config e h X)) in
  currentIndex e'
  = (if indexOf (layoutOrder config) (currentID e') =? -1 then None
     else Some (indexOf (layoutOrder config) (currentID e'))).
Proof.
  unfold toggleLayout.
  destruct (loadLayout class_id e h (Some X)) as [[l e1] h1].
  cbn [fst snd]. destruct (decide (currentID e1 = Some X)); reflexivity.
Qed.

(** X10: after [toggleLayout] the index of the entry is in step with its
    current id: it is the first position of the current id in the
    configured order, or [null] when the current id is not in the order. *)
Theorem toggleLayout_index_in_step
        (config : Config) (e : t) (h : Heap) (X : string) :
  let e' := snd (fst (toggleLayout class_id config e h X)) in
  match currentIndex e' with
  | Some i =>
      0 <= i < Z.of_nat (length (layoutOrder config))
      /\ array_at (layoutOrder config) i = currentID e'
      /\ (forall j : nat, Z.of_nat j < i ->
                          (layoutOrder config !! j : option string)
                          <> currentID e')
  | None => forall a, a ∈ layoutOrder config -> currentID e' <> Some a
  end.
Proof.
  intros e'. subst e'. rewrite toggleLayout_index. unfold indexOf.
  set (e' := snd (fst (toggleLayout class_id config e h X))).
  destruct (indexOf_from_spec (layoutOrder config) (currentID e') 0)
    as [[E H]|(k & E & Hk & Hlen & Hfirst)]; rewrite E.
  - cbn. apply H. lia.
  - destruct (Z.eqb_spec (0 + Z.of_nat k) (-1)); [lia|].
    replace (0 + Z.of_nat k) with (Z.of_nat k) by lia.
    split; [lia|]. split; [rewrite array_at_nat; exact Hk|].
    intros j Hj. apply Hfirst. lia.
Qed.

Lemma cycleLayout_previous (config : Config) (e : t) (h : Heap) (step : Z) :
  previousID (snd (fst (cycleLayout class_id config e h step))) = currentID e.
Proof.
  unfold cycleLayout.
  match goal with
  | |- context [loadLayout class_id ?e0 h ?i] =>
      destruct (loadLayout_ids class_id e0 h i) as (_ & Hp & _);
      destruct (loadLayout class_id e0 h i) as [[l e1] h1]
  end.
  exact Hp.
Qed.

Lemma wrapIndex_mod (j n step : Z) :
  0 <= j < n -> step = 1 \/ step = -1 ->
  wrapIndex (j + step) n = (j + step) mod n.
Proof.
  intros Hj Hs. unfold wrapIndex.
  destruct (Z.ltb_spec (j + step) 0).
  - apply (Z.mod_unique _ _ (-1)); lia.
  - destruct (Z.leb_spec n (j + step)).
    + apply (Z.mod_unique _ _ 1); lia.
    + symmetry. apply Z.mod_small. lia.
Qed.

Lemma cycleLayout_step (config : Config) (e : t) (h : Heap) (step i : Z) :
  step = 1 \/ step = -1 ->
  index_in_step config e i ->
  index_in_step config (snd (fst (cycleLayout class_id config e h step)))
                ((i + step) mod Z.of_nat (length (layoutOrder config))).
Proof.
  intros Hs (Hi & Hr & Hc).
  destruct (cycleLayout_ids class_id config e h step) as [Hi1 Hc1].
  rewrite Hi in Hi1, Hc1. rewrite wrapIndex_mod in Hi1, Hc1 by assumption.
  split; [exact Hi1|]. split; [|exact Hc1].
  apply Z.mod_pos_bound. lia.
Qed.

Lemma cycle_times_step (config : Config) (step : Z) (k : nat) :
  step = 1 \/ step = -1 ->
  forall (e : t) (h : Heap) (i : Z),
    index_in_step config e i ->
    index_in_step config (fst (cycle_times class_id config k step e h))
                  ((i + step * Z.of_nat k)
                     mod Z.of_nat (length (layoutOrder config))).
Proof.
  intros Hs. induction k as [|k IH]; intros e h i Hin.
  - cbn [cycle_times fst]. replace (i + step * Z.of_nat 0) with i by lia.
    destruct Hin as (Hi & Hr & Hc). rewrite Z.mod_small by lia.
    repeat split; assumption || lia.
  - cbn [cycle_times].
    pose proof (cycleLayout_step config e h step i Hs Hin) as H1.
    destruct (cycleLayout class_id config e h step) as [[l e1] h1].
    cbn [fst snd] in H1. specialize (IH e1 h1 _ H1).
    replace ((i + step * Z.of_nat (S k))
               mod Z.of_nat (length (layoutOrder config)))
      with (((i + step) mod Z.of_nat (length (layoutOrder config))
             + step * Z.of_nat k)
              mod Z.of_nat (length (layoutOrder config))); [exact IH|].
    rewrite Zplus_mod_idemp_l. f_equal. lia.
Qed.

End RegistryOrder.

Section RegistryCycle.

Import LayoutStoreEntry.

Variable class_id : LayoutClass -> string.

(** X11: on an entry whose index is in step with its current id,
    [cycleLayout] one way and then the other way restores the current id
    and the index, whichever way comes first; the id passed through is
    recorded as the previous one. *)
Theorem cycle_forth_and_back_in_step
        (config : Config) (e : t) (h : Heap) (i step : Z) :
  step = 1 \/ step = -1 ->
  index_in_step config e i ->
  let '(_, e1, h1) := cycleLayout class_id config e h step in
  let '(_, e2, _) := cycleLayout class_id config e1 h1 (- step) in
  currentID e2 = currentID e
  /\ currentIndex e2 = currentIndex e
  /\ previousID e2 = currentID e1.
Proof.
  intros Hs Hin.
  pose proof (cycleLayout_step class_id config e h step i Hs Hin) as H1.
  destruct (cycleLayout class_id config e h step) as [[l1 e1] h1].
  cbn [fst snd] in H1.
  assert (Hs' : - step = 1 \/ - step = -1) by lia.
  pose proof (cycleLayout_step class_id config e1 h1 (- step) _ Hs' H1)
    as (Hi2 & _ & Hc2).
  pose proof (cycleLayout_previous class_id config e1 h1 (- step)) as Hp2.
  destruct (cycleLayout class_id config e1 h1 (- step)) as [[l2 e2] h2].
  cbn [fst snd] in *. destruct Hin as (Hi & Hr & Hc).
  assert (E : ((i + step) mod Z.of_nat (length (layoutOrder config))
               + - step) mod Z.of_nat (length (layoutOrder config)) = i).
  { rewrite Zplus_mod_idemp_l.
    replace (i + step + - step) with i by lia. apply Z.mod_small, Hr. }
  rewrite E in Hi2, Hc2. repeat split; congruence.
Qed.

(** X12: from an entry whose index is in step with its current id, [k]
    calls of [cycleLayout] in one direction end [k] places further along
    the configured order, wrapping around at both ends; as many calls as
    the order has ids come back to the id and the index they started
    from. *)
Theorem cycling_walks_the_order
        (config : Config) (e : t) (h : Heap) (i step : Z) (k : nat) :
  step = 1 \/ step = -1 ->
  index_in_step config e i ->
  let n := Z.of_nat (length (layoutOrder config)) in
  let e' := fst (cycle_times class_id config k step e h) in
  index_in_step config e' ((i + step * Z.of_nat k) mod n)
  /\ (k = length (layoutOrder config) ->
      currentIndex e' = currentIndex e /\ currentID e' = currentID e).
Proof.
  intros Hs Hin n e'.
  pose proof (cycle_times_step class_id config step k Hs e h i Hin) as H.
  fold n in H. fold e' in H. split; [exact H|].
  intros ->. fold n in H. rewrite Z.mod_add in H by (destruct Hin; lia).
  destruct Hin as (Hi & Hr & Hc). fold n in Hr.
  rewrite Z.mod_small in H by exact Hr.
  destruct H as (Hi' & _ & Hc'). split; congruence.
Qed.

(** X13: [toggleLayout] of the id that [cycleLayout] has just made current
    goes back to the id that was current before the cycling. *)
Theorem toggle_after_cycle_goes_back
        (config : Config) (e : t) (h : Heap) (step : Z) (X : string) :
  let '(_, e1, h1) := cycleLayout class_id config e h step in
  currentID e1 = Some X ->
  let '(_, e2, _) := toggleLayout class_id config e1 h1 X in
  currentID e2 = currentID e /\ previousID e2 = Some X.
Proof.
  pose proof (cycleLayout_previous class_id config e h step) as Hp.
  destruct (cycleLayout class_id config e h step) as [[l1 e1] h1].
  cbn [fst snd] in Hp. intros Hc.
  pose proof (toggleLayout_ids class_id config e1 h1 X) as [Hc2 Hp2].
  destruct (toggleLayout class_id config e1 h1 X) as [[l2 e2] h2].
  cbn [fst snd] in *.
  destruct (decide (currentID e1 = Some X)); [|contradiction].
  split; congruence.
Qed.


End RegistryCycle.

Section StoreFacts.

Import LayoutStore.

Variable class_id : LayoutClass -> string.

Lemma new_subseteq (config : Config) (px : TSProxy) (key : string) (h : Heap) :
  h ⊆ snd (LayoutStoreEntry.new class_id config px key h).
Proof.
  rewrite new_unfold. cbn zeta. cbn [snd].
  destruct (createLayoutFromId_alloc
              class_id h (LayoutStoreEntry.initial_id config px key))
    as [c ->].
  apply alloc_subseteq.
Qed.

Lemma getEntry_spec (config : Config) (px : TSProxy) (ls : t) (h : Heap)
      (key : string) :
  let '(e, ls1, h1) := getEntry class_id config px ls h key in
  store ls1 !! key = Some e
  /\ (forall k, k <> key -> store ls1 !! k = store ls !! k)
  /\ h ⊆ h1.
Proof.
  unfold getEntry. destruct (store ls !! key) as [e|] eqn:E.
  - repeat split; auto.
  - pose proof (new_subseteq config px key h) as Hs.
    destruct (LayoutStoreEntry.new class_id config px key h) as [e h1].
    cbn [store snd] in *. split; [apply lookup_insert_eq|].
    split; [|exact Hs]. intros k Hk. apply lookup_insert_ne. congruence.
Qed.

Lemma getEntry_hit (config : Config) (px : TSProxy) (ls : t) (h : Heap)
      (key : string) (e : LayoutStoreEntry.t) :
  store ls !! key = Some e ->
  getEntry class_id config px ls h key = (e, ls, h).
Proof. intros H. unfold getEntry. rewrite H. reflexivity. Qed.

Lemma put_entry_twice (key : string) (e : LayoutStoreEntry.t) (ls : t) :
  put_entry key e (put_entry key e ls) = put_entry key e ls.
Proof. unfold put_entry. cbn [store]. rewrite insert_insert_eq. reflexivity. Qed.

(** X15: resolving the current layout of a surface a second time yields
    the very layout object of the first time and leaves the registry and
    the heap as the first resolution has left them: entries and layouts
    are created once and then reused. *)
Theorem getCurrentLayout_is_stable
        (config : Config) (px : TSProxy) (ls : t) (h : Heap)
        (srf : DriverSurfaceImpl.t) :
  let '(layout, ls1, h1) := getCurrentLayout class_id config px ls h srf in
  getCurrentLayout class_id config px ls1 h1 srf = (layout, ls1, h1).
Proof.
  unfold getCurrentLayout.
  destruct (DriverSurfaceImpl.ignore srf); [reflexivity|].
  set (key := pretty (DriverSurfaceImpl.screen srf)).
  destruct (getEntry class_id config px ls h key) as [[e ls1] h1].
  unfold LayoutStoreEntry.currentLayout.
  pose proof (loadLayout_twice class_id e h1 (LayoutStoreEntry.currentID e))
    as H2.
  pose proof (loadLayout_ids class_id e h1 (LayoutStoreEntry.currentID e))
    as (Hc & _).
  destruct (LayoutStoreEntry.loadLayout
              class_id e h1 (LayoutStoreEntry.currentID e))
    as [[layout e'] h2].
  cbn [fst snd] in Hc.
  rewrite (getEntry_hit config px (put_entry key e' ls1) h2 key e')
    by apply lookup_insert_eq.
  rewrite Hc, H2, put_entry_twice. reflexivity.
Qed.

(** X17: the registry keeps one entry per screen and an operation on a
    surface touches the entry of its screen only: after
    [getCurrentLayout], [cycleLayout] or [toggleLayout] on a surface, the
    entry of every other screen is what it was. *)
Theorem registry_entries_are_per_screen
        (config : Config) (px : TSProxy) (ls : t) (h : Heap)
        (srf other : DriverSurfaceImpl.t) (step : Z) (X : string) :
  DriverSurfaceImpl.screen other <> DriverSurfaceImpl.screen srf ->
  let key := pretty (DriverSurfaceImpl.screen other) in
  store (snd (fst (getCurrentLayout class_id config px ls h srf))) !! key
  = store ls !! key
  /\ store (snd (fst (cycleLayout class_id config px ls h srf step))) !! key
     = store ls !! key
  /\ store (snd (fst (toggleLayout class_id config px ls h srf X))) !! key
     = store ls !! key.
Proof.
  intros Hne key.
  assert (Hk : key <> pretty (DriverSurfaceImpl.screen srf)).
  { intros E. apply Hne. exact (pretty_Z_inj _ _ E). }
  unfold getCurrentLayout, cycleLayout, toggleLayout.
  destruct (DriverSurfaceImpl.ignore srf); [repeat split; reflexivity|].
  pose proof (getEntry_spec config px ls h
                            (pretty (DriverSurfaceImpl.screen srf)))
    as Hg.
  destruct (getEntry class_id config px ls h
                     (pretty (DriverSurfaceImpl.screen srf)))
    as [[e ls1] h1].
  destruct Hg as (_ & Hother & _).
  split; [|split].
  - destruct (LayoutStoreEntry.currentLayout class_id e h1) as [[l e'] h2].
    cbn [fst snd put_entry store].
    rewrite lookup_insert_ne by congruence. apply Hother, Hk.
  - destruct (LayoutStoreEntry.cycleLayout class_id config e h1 step)
      as [[l e'] h2].
    cbn [fst snd put_entry store].
    rewrite lookup_insert_ne by congruence. apply Hother, Hk.
  - destruct (LayoutStoreEntry.toggleLayout class_id config e h1 X)
      as [[l e'] h2].
    cbn [fst snd put_entry store].
    rewrite lookup_insert_ne by congruence. apply Hother, Hk.
Qed.

End StoreFacts.

Lemma entry_on_tile_in_step : index_in_step config_tile_monocle entry_on_tile 0.
Proof. repeat split; cbn; lia. Qed.

Lemma cycle_forth_and_back_in_step_witness :
  index_in_step config_tile_monocle entry_on_tile 0
  /\ (let '(_, e1, h1) :=
        LayoutStoreEntry.cycleLayout class_name config_tile_monocle
                                     entry_on_tile initial_heap 1 in
      let '(_, e2, _) :=
        LayoutStoreEntry.cycleLayout class_name config_tile_monocle
                                     e1 h1 (- 1) in
      LayoutStoreEntry.currentID e2 = LayoutStoreEntry.currentID entry_on_tile
      /\ LayoutStoreEntry.currentIndex e2
         = LayoutStoreEntry.currentIndex entry_on_tile
      /\ LayoutStoreEntry.previousID e2 = LayoutStoreEntry.currentID e1).
Proof.
  split; [exact entry_on_tile_in_step|].
  apply (cycle_forth_and_back_in_step
           class_name config_tile_monocle entry_on_tile initial_heap 0 1);
    [left; reflexivity | exact entry_on_tile_in_step].
Defined.

Lemma cycling_walks_the_order_witness :
  index_in_step config_tile_monocle entry_on_tile 0
  /\ LayoutStoreEntry.currentID
       (fst (cycle_times class_name config_tile_monocle 2 1
                         entry_on_tile initial_heap))
     = Some "TileLayout"
  /\ index_in_step config_tile_monocle
                   (fst (cycle_times class_name config_tile_monocle 3 (-1)
                                     entry_on_tile initial_heap))
                   1.
Proof.
  split; [exact entry_on_tile_in_step|]. split.
  - destruct (cycling_walks_the_order
                class_name config_tile_monocle entry_on_tile initial_heap
                0 1 2) as [_ H];
      [left; reflexivity | exact entry_on_tile_in_step |].
    destruct H as [_ H]; [reflexivity | exact H].
  - destruct (cycling_walks_the_order
                class_name config_tile_monocle entry_on_tile initial_heap
                0 (-1) 3) as [H _];
      [right; reflexivity | exact entry_on_tile_in_step |].
    exact H.
Defined.

Lemma toggle_after_cycle_goes_back_witness :
  let '(_, e1, h1) :=
    LayoutStoreEntry.cycleLayout class_name config_tile_monocle
                                 entry_on_tile initial_heap 1 in
  LayoutStoreEntry.currentID e1 = Some "MonocleLayout"
  /\ (let '(_, e2, _) :=
        LayoutStoreEntry.toggleLayout class_name config_tile_monocle
                                      e1 h1 "MonocleLayout" in
      LayoutStoreEntry.currentID e2 = Some "TileLayout"
      /\ LayoutStoreEntry.previousID e2 = Some "MonocleLayout").
Proof.
  pose proof (toggle_after_cycle_goes_back
                class_name config_tile_monocle entry_on_tile initial_heap 1
                "MonocleLayout") as H.
  pose proof (cycleLayout_ids class_name config_tile_monocle entry_on_tile
                              initial_heap 1) as [_ Hc].
  destruct (LayoutStoreEntry.cycleLayout class_name config_tile_monocle
              entry_on_tile initial_heap 1) as [[l1 e1] h1].
  cbn [fst snd] in Hc. split; [exact Hc|]. apply H. exact Hc.
Defined.


Lemma registry_entries_are_per_screen_witness :
  DriverSurfaceImpl.screen surface_screen1
  <> DriverSurfaceImpl.screen surface_screen0
  /\ LayoutStore.store
       (snd (fst (LayoutStore.cycleLayout
                    class_name config_tile_monocle (mkTSProxy ∅ ∅ ∅)
                    LayoutStore.new initial_heap surface_screen0 1)))
     !! pretty (DriverSurfaceImpl.screen surface_screen1)
     = None.
Proof.
  split; [discriminate|].
  destruct (registry_entries_are_per_screen
              class_name config_tile_monocle (mkTSProxy ∅ ∅ ∅)
              LayoutStore.new initial_heap surface_screen0 surface_screen1
              1 "TileLayout") as (_ & H & _); [discriminate|].
  rewrite H. reflexivity.
Defined.

(** ** Surfaces and their group, continued *)

Section SurfaceMore.

Import DriverSurfaceImpl.

(** X19: on the screens 0 to 4 the group derived on first touch tells
    (desktop, screen) pairs apart, and from desktop 1 on it is a positive
    integer, so it is truthy and sticks.  Beyond screen 4 groups collide:
    screen 5 of desktop 1 and screen 1 of desktop 2 both derive 6. *)
Theorem derived_groups_are_distinct (a b : t) :
  (0 <= screen a <= 4 -> 0 <= screen b <= 4 ->
   derived_group a = derived_group b ->
   desktop a = desktop b /\ screen a = screen b)
  /\ (0 <= screen a <= 4 -> 1 <= desktop a ->
      exists g, derived_group a = Num g
                /\ (desktop a - 1) * 5 < g <= desktop a * 5)
  /\ derived_group (mk 5 "a" 1 false (Rect.mk 0 0 0 0) (Num 0))
     = derived_group (mk 1 "a" 2 false (Rect.mk 0 0 0 0) (Num 0)).
Proof.
  assert (Hord : forall sc, 0 <= sc <= 4 ->
                   exists v, order_at sc = Num v /\ 1 <= v <= 5
                             /\ (sc = 0 /\ v = 4 \/ sc = 1 /\ v = 1
                                 \/ sc = 2 /\ v = 3 \/ sc = 3 /\ v = 2
                                 \/ sc = 4 /\ v = 5)).
  { intros sc Hsc.
    assert (sc = 0 \/ sc = 1 \/ sc = 2 \/ sc = 3 \/ sc = 4) as Hc by lia.
    destruct Hc as [->|[->|[->|[->| ->]]]]; eexists;
      (split; [reflexivity|]); lia. }
  split; [|split].
  - intros Ha Hb. unfold derived_group.
    destruct (Hord _ Ha) as (va & -> & Hva & Hca).
    destruct (Hord _ Hb) as (vb & -> & Hvb & Hcb).
    cbn [number_add]. intros [= E]. lia.
  - intros Ha Hd. unfold derived_group.
    destruct (Hord _ Ha) as (va & -> & Hva & _).
    cbn [number_add]. eexists. split; [reflexivity|]. lia.
  - reflexivity.
Qed.

End SurfaceMore.

Lemma derived_groups_are_distinct_witness :
  0 <= DriverSurfaceImpl.screen surface_2_1 <= 4
  /\ 1 <= DriverSurfaceImpl.desktop surface_2_1
  /\ exists g, DriverSurfaceImpl.derived_group surface_2_1 = Num g
               /\ (DriverSurfaceImpl.desktop surface_2_1 - 1) * 5 < g
                  <= DriverSurfaceImpl.desktop surface_2_1 * 5.
Proof.
  split; [vm_compute; split; discriminate|].
  split; [vm_compute; discriminate|].
  destruct (derived_groups_are_distinct surface_2_1 surface_2_1)
    as (_ & H & _).
  apply H; vm_compute; try split; discriminate.
Defined.

(** ** The window wrapper, continued *)

Lemma clip_within (v lo hi : Z) :
  lo <= hi -> lo <= clip v lo hi <= hi.
Proof.
  intros H. unfold clip.
  repeat match goal with
         | |- context [?a <? ?b] => destruct (Z.ltb_spec a b)
         end; lia.
Qed.

Lemma clip_inside (v lo hi : Z) : lo <= v <= hi -> clip v lo hi = v.
Proof.
  intros H. unfold clip.
  repeat match goal with
         | |- context [?a <? ?b] => destruct (Z.ltb_spec a b)
         end; lia.
Qed.

Section WindowMore.

Import DriverWindowImpl.

Variable includes : Rect.t -> Rect.t -> bool.
Variable differs : Rect.t -> Rect.t -> bool.

(** X20: [adjustGeometry] never moves a geometry: it keeps x and y.  A
    window that is not resizable keeps the size of its frame whatever is
    asked for.  For a resizable window whose minimum size does not exceed
    its maximum size, the width and height that come out lie within the
    two, a size that already does is left alone, and adjusting twice is
    adjusting once. *)
Theorem adjustGeometry_respects_hints (w : t) (g : Rect.t) :
  let c := client w in
  let g' := adjustGeometry w g in
  Rect.x g' = Rect.x g /\ Rect.y g' = Rect.y g
  /\ (KWinClient.resizeable c = false ->
      Rect.width g' = Rect.width (KWinClient.frameGeometry c)
      /\ Rect.height g' = Rect.height (KWinClient.frameGeometry c))
  /\ (KWinClient.resizeable c = true ->
      KWinClient.sz_width (KWinClient.minSize c)
      <= KWinClient.sz_width (KWinClient.maxSize c) ->
      KWinClient.sz_height (KWinClient.minSize c)
      <= KWinClient.sz_height (KWinClient.maxSize c) ->
      KWinClient.sz_width (KWinClient.minSize c) <= Rect.width g'
      <= KWinClient.sz_width (KWinClient.maxSize c)
      /\ KWinClient.sz_height (KWinClient.minSize c) <= Rect.height g'
         <= KWinClient.sz_height (KWinClient.maxSize c)
      /\ (KWinClient.sz_width (KWinClient.minSize c) <= Rect.width g
          <= KWinClient.sz_width (KWinClient.maxSize c) ->
          KWinClient.sz_height (KWinClient.minSize c) <= Rect.height g
          <= KWinClient.sz_height (KWinClient.maxSize c) ->
          g' = g)
      /\ adjustGeometry w g' = g').
Proof.
  intros c g'. subst c g'. unfold adjustGeometry.
  destruct (KWinClient.resizeable (client w)); cbn [negb].
  - split; [reflexivity|]. split; [reflexivity|].
    split; [discriminate|]. intros _ Hw Hh. cbn.
    split; [apply clip_within, Hw|]. split; [apply clip_within, Hh|].
    split.
    + intros Hgw Hgh. rewrite !clip_inside by assumption.
      destruct g; reflexivity.
    + rewrite !clip_idempotent by assumption. reflexivity.
  - split; [reflexivity|]. split; [reflexivity|].
    split; [intros _; split; reflexivity | discriminate].
Qed.

(** X21: as the class stands, the setters of [hidden] and [desktop]
    throw at their first statement, the call to the log the class never
    received, before they change the window, write to the client or
    persist anything; and so does [commit], for every window and every
    argument: it ends in that [TypeError] at its first use of the log (in
    the screen getter for a screen outside 0..4, in [this.hidden = false]
    otherwise), with the window and the client as they were and nothing
    written, and never reaches its border, keep-above and geometry
    blocks. *)
Theorem commit_throws_before_any_write
        (config : Config) (ws : Workspace) (geometry : option Rect.t)
        (noBorder keepAbove : option bool) (hide : bool) (d : Z) (σ : World) :
  set_hidden hide σ = (σ, Throws (TypeError "log"))
  /\ set_desktop d σ = (σ, Throws (TypeError "log"))
  /\ commit includes differs config ws geometry noBorder keepAbove σ
     = (σ, Throws (TypeError "log")).
Proof.
  split; [reflexivity|]. split; [reflexivity|].
  unfold commit, surface, get_screen, bind, read, ret, log_log.
  destruct (_screen (win σ)) as [z|]; [|reflexivity].
  destruct ((z <? 0) || (4 <? z)); reflexivity.
Qed.

Lemma commit_noBorder_fields (nb : bool) (σ : World) :
  let σ' := commit_noBorder nb σ in
  let managed := noBorderManaged (win σ) in
  let border := KWinClient.noBorder (client (win σ)) in
  let original :=
    if negb managed && nb then border
    else if managed && negb border then false
    else noBorderOriginal (win σ) in
  noBorderManaged (win σ') = nb
  /\ noBorderOriginal (win σ') = original
  /\ KWinClient.noBorder (client (win σ'))
     = (if nb then true else if managed then original else border)
  /\ KWinClient.resize (client (win σ')) = KWinClient.resize (client (win σ)).
Proof.
  destruct σ as [[c d s g hd mx nbm nbo] px wr].
  destruct c as [wid cd sc acts rs mv rz b ka fg mn mxs].
  destruct nb, nbm, b; cbn; repeat split.
Qed.

(** X22: the border of a window survives a round trip through managed
    mode.  The border block of [commit], run with [noBorder] set, removes
    the border and backs up what the client had; run with [noBorder]
    cleared afterwards, it puts that back and leaves managed mode.  When
    the client shows its border again while it is managed, the next run
    with [noBorder] set remembers that, so that leaving managed mode
    later leaves the border shown.  The block touches neither the frame
    geometry nor anything the geometry block reads. *)
Theorem border_survives_managed_mode (σ : World) :
  let σ1 := commit_noBorder true σ in
  let σ2 := commit_noBorder false σ1 in
  (noBorderManaged (win σ) = false ->
   KWinClient.noBorder (client (win σ1)) = true
   /\ noBorderManaged (win σ1) = true
   /\ KWinClient.noBorder (client (win σ2))
      = KWinClient.noBorder (client (win σ))
   /\ noBorderManaged (win σ2) = false)
  /\ (noBorderManaged (win σ) = true ->
      KWinClient.noBorder (client (win σ)) = false ->
      noBorderOriginal (win σ1) = false
      /\ KWinClient.noBorder (client (win σ2)) = false)
  /\ frame_untouched σ σ2.
Proof.
  intros σ1 σ2. subst σ1 σ2.
  destruct (commit_noBorder_fields true σ) as (Hm1 & Ho1 & Hb1 & _).
  set (σ1 := commit_noBorder true σ) in *.
  destruct (commit_noBorder_fields false σ1) as (Hm3 & Ho3 & Hb3 & _).
  cbv zeta in *. rewrite Hm1, Hb1, Ho1 in *. cbn in Hb3, Ho3.
  split; [|split].
  - intros Hm. rewrite Hm in *. cbn in *.
    repeat split; assumption.
  - intros Hm Hb. rewrite Hm, Hb in *. cbn in *.
    split; assumption.
  - apply (frame_untouched_trans _ σ1); apply commit_noBorder_untouched.
Qed.

(** X24: what [commit] makes of a requested geometry never lies right of
    or below what the resize hints make of it, and has the same size (for
    size limits that do not contradict each other): protrusion prevention
    only ever moves a geometry left and up.  It leaves the geometry alone
    when it is switched off, when the geometry is included in the
    placement area, and on each axis on which the geometry does not
    overshoot the area. *)
Theorem protrusion_prevention_only_moves
        (config : Config) (ws : Workspace) (w : t) (g : Rect.t) :
  let c := client w in
  let hinted := adjustGeometry w g in
  let area := clientArea ws (KWinClient.screen c) (currentDesktop ws) in
  let target := commit_target includes config ws w g in
  (preventProtrusion config = false -> target = hinted)
  /\ (includes area hinted = true -> target = hinted)
  /\ ((KWinClient.resizeable c = true ->
       KWinClient.sz_width (KWinClient.minSize c)
       <= KWinClient.sz_width (KWinClient.maxSize c)
       /\ KWinClient.sz_height (KWinClient.minSize c)
          <= KWinClient.sz_height (KWinClient.maxSize c)) ->
      Rect.width target = Rect.width hinted
      /\ Rect.height target = Rect.height hinted
      /\ Rect.x target <= Rect.x hinted
      /\ Rect.y target <= Rect.y hinted
      /\ (Rect.maxX hinted <= Rect.maxX area -> Rect.x target = Rect.x hinted)
      /\ (Rect.maxY hinted <= Rect.maxY area ->
          Rect.y target = Rect.y hinted)).
Proof.
  intros c hinted area target. subst target. unfold commit_target.
  fold c. fold hinted. fold area. cbv zeta.
  split; [intros ->; reflexivity|].
  split; [intros ->; destruct (preventProtrusion config); reflexivity|].
  intros Hh.
  destruct (preventProtrusion config); [|repeat split; lia].
  destruct (includes area hinted); cbn [negb]; [repeat split; lia|].
  unfold hinted. rewrite adjustGeometry_settled by exact Hh.
  cbn [Rect.x Rect.y Rect.width Rect.height].
  repeat split; lia.
Qed.

End WindowMore.

Lemma adjustGeometry_respects_hints_witness :
  let w := DriverWindowImpl.win (world_50x50 false) in
  KWinClient.resizeable (DriverWindowImpl.client w) = true
  /\ DriverWindowImpl.adjustGeometry w (Rect.mk 3 4 20000 (-5))
     = Rect.mk 3 4 10000 0
  /\ DriverWindowImpl.adjustGeometry
       w (DriverWindowImpl.adjustGeometry w (Rect.mk 3 4 20000 (-5)))
     = DriverWindowImpl.adjustGeometry w (Rect.mk 3 4 20000 (-5)).
Proof.
  intros w. split; [reflexivity|]. split; [reflexivity|].
  destruct (adjustGeometry_respects_hints w (Rect.mk 3 4 20000 (-5)))
    as (_ & _ & _ & H).
  destruct H as (_ & _ & _ & H);
    [reflexivity | vm_compute; discriminate | vm_compute; discriminate |].
  exact H.
Defined.

Lemma border_survives_managed_mode_witness :
  let σ := world_50x50 false in
  let σ1 := DriverWindowImpl.commit_noBorder true σ in
  let σ2 := DriverWindowImpl.commit_noBorder false σ1 in
  DriverWindowImpl.noBorderManaged (DriverWindowImpl.win σ) = false
  /\ KWinClient.noBorder (DriverWindowImpl.client (DriverWindowImpl.win σ1))
     = true
  /\ KWinClient.noBorder (DriverWindowImpl.client (DriverWindowImpl.win σ2))
     = false.
Proof.
  intros σ σ1 σ2. split; [reflexivity|].
  destruct (border_survives_managed_mode σ) as [H _].
  destruct (H eq_refl) as (H1 & _ & H2 & _). split; [exact H1 | exact H2].
Defined.

Lemma protrusion_prevention_only_moves_witness :
  let w := DriverWindowImpl.win (world_50x50 false) in
  Rect.includes (Rect.mk 0 0 100 100) (Rect.mk 10 80 50 50) = false
  /\ DriverWindowImpl.commit_target Rect.includes config_prevent
                                    workspace_100x100 w (Rect.mk 10 80 50 50)
     = Rect.mk 10 50 50 50
  /\ Rect.x (DriverWindowImpl.commit_target
               Rect.includes config_prevent workspace_100x100 w
               (Rect.mk 10 80 50 50)) = 10.
Proof.
  intros w. split; [reflexivity|]. split; [reflexivity|].
  destruct (protrusion_prevention_only_moves
              Rect.includes config_prevent workspace_100x100 w
              (Rect.mk 10 80 50 50)) as (_ & _ & H).
  destruct H as (_ & _ & _ & _ & H & _);
    [intros _; split; vm_compute; discriminate|].
  apply H. vm_compute. discriminate.
Defined.

(** ** The driver, continued *)

Section WrapperMapFacts.

Import WrapperMap.

Context {F T : Type}.
Variable hasher : F -> string.
Variable wrapper : F -> T.

(** X26: the wrapper map keeps one wrapped item per key.  Adding an item
    whose key is free stores its wrapping, which [get] then returns for
    every item with that key, and leaves other keys alone; adding an item
    whose key is taken throws and stores nothing.  Removing always answers
    [true], makes [get] answer [null] for the key, leaves other keys
    alone, and frees the key for a new [add]. *)
Theorem wrapper_map_laws (m : t (T:=T)) (item other : F) :
  (get hasher item m = None ->
   exists m',
     add hasher wrapper item m = inr (wrapper item, m')
     /\ (hasher other = hasher item ->
         get hasher other m' = Some (wrapper item)
         /\ exists msg, add hasher wrapper other m' = inl msg)
     /\ (hasher other <> hasher item ->
         get hasher other m' = get hasher other m))
  /\ (is_Some (get hasher item m) ->
      exists msg, add hasher wrapper item m = inl msg)
  /\ (let '(answer, m') := remove hasher item m in
      answer = true
      /\ get hasher item m' = None
      /\ (hasher other <> hasher item ->
          get hasher other m' = get hasher other m)
      /\ exists m'', add hasher wrapper item m' = inr (wrapper item, m''))
  /\ get hasher item (new (T:=T)) = None.
Proof.
  unfold get, add, remove, new. cbn [items].
  split; [|split; [|split]].
  - intros Hfree. rewrite Hfree. eexists. split; [reflexivity|].
    cbn [items]. split.
    + intros ->. rewrite lookup_insert_eq. split; [reflexivity|].
      eexists. reflexivity.
    + intros Hne. apply lookup_insert_ne. congruence.
  - intros [v Hv]. rewrite Hv. eexists. reflexivity.
  - split; [reflexivity|]. rewrite lookup_delete_eq.
    split; [reflexivity|]. split.
    + intros Hne. apply lookup_delete_ne. congruence.
    + eexists. reflexivity.
  - apply lookup_empty.
Qed.

End WrapperMapFacts.

Lemma wrapper_map_laws_witness :
  let m := WrapperMap.new (T:=nat) in
  WrapperMap.get (fun s : string => s) "a" m = None
  /\ exists m',
       WrapperMap.add (fun s : string => s) String.length "a" m
       = inr (1%nat, m')
       /\ WrapperMap.get (fun s : string => s) "a" m' = Some 1%nat.
Proof.
  intros m. split; [reflexivity|].
  destruct (wrapper_map_laws (fun s : string => s) String.length m "a" "a")
    as [H _].
  destruct (H eq_refl) as (m' & Ha & Hsame & _).
  exists m'. split; [exact Ha|]. apply Hsame. reflexivity.
Defined.

Section GuardMore.

Import DriverImpl.

Lemma run_body_guarded_explicit (fuel : nat) (body : handler) : forall d : t,
  entered d = true ->
  run_body (emit (S fuel)) body d
  = Some (mk true (registeredConnections d) (ran d ++ guarded_steps body)
             (log d), thrown_by body).
Proof.
  induction body as [|s rest IH]; intros d H.
  - cbn. rewrite app_nil_r. destruct d; cbn in *. rewrite H. reflexivity.
  - destruct s as [name|signal|name message].
    + cbn [run_body thrown_by]. rewrite (IH (record_step name d) H).
      unfold guarded_steps.
      cbn [own_steps fmap list_fmap record_step registeredConnections ran log
           entered].
      rewrite H, <- app_assoc. reflexivity.
    + cbn [run_body thrown_by]. rewrite emit_while_entered by exact H.
      rewrite (IH d H). reflexivity.
    + cbn. rewrite app_nil_r. destruct d; cbn in *. rewrite H. reflexivity.
Qed.

Lemma enter_explicit (fuel : nat) (body : handler) (d : t) :
  entered d = false ->
  enter (run_body (emit (S fuel)) body) d
  = Some (mk false (registeredConnections d) (ran d ++ guarded_steps body)
             (log d ++ oops_lines body)).
Proof.
  intros H. unfold enter. rewrite H.
  rewrite (run_body_guarded_explicit fuel body (set_entered true d) eq_refl).
  unfold oops_lines. destruct (thrown_by body) as [[name message]|]; cbn.
  - reflexivity.
  - rewrite app_nil_r. reflexivity.
Qed.

Lemma call_all_explicit (fuel : nat) (hs : list handler) : forall d : t,
  entered d = false ->
  call_all (fun h d' => enter (run_body (emit (S fuel)) h) d') hs d
  = Some (mk false (registeredConnections d)
             (ran d ++ concat (guarded_steps <$> hs))
             (log d ++ concat (oops_lines <$> hs))).
Proof.
  induction hs as [|h hs IH]; intros d H; cbn [call_all].
  - cbn. rewrite !app_nil_r. destruct d; cbn in *. rewrite H. reflexivity.
  - rewrite enter_explicit by exact H. rewrite IH by reflexivity.
    cbn. rewrite <- !app_assoc. reflexivity.
Qed.

Lemma emit_explicit (fuel : nat) (signal : string) (d : t) :
  entered d = false ->
  emit (S (S fuel)) signal d
  = Some (mk false (registeredConnections d)
             (ran d ++ concat (guarded_steps <$> handlers_of signal d))
             (log d ++ concat (oops_lines <$> handlers_of signal d))).
Proof. intros H. cbn [emit]. apply call_all_explicit, H. Qed.

(** X27: a handler that throws does not stop the loop.  Of two
    notifications in a row, each runs every handler bound to its signal,
    also the ones after a handler that threw; every exception is logged
    as one line and swallowed; the guard is clear after each, so the
    second notification is served like the first. *)
Theorem throwing_handler_does_not_stop_the_loop
        (fuel1 fuel2 : nat) (signal1 signal2 : string) (d : t) :
  entered d = false ->
  exists d1 d2,
    emit (S (S fuel1)) signal1 d = Some d1
    /\ emit (S (S fuel2)) signal2 d1 = Some d2
    /\ entered d1 = false /\ entered d2 = false
    /\ ran d2 = ran d ++ concat (guarded_steps <$> handlers_of signal1 d)
                      ++ concat (guarded_steps <$> handlers_of signal2 d)
    /\ log d2 = log d ++ concat (oops_lines <$> handlers_of signal1 d)
                      ++ concat (oops_lines <$> handlers_of signal2 d).
Proof.
  intros H. rewrite (emit_explicit fuel1 signal1 d H).
  eexists. eexists. split; [reflexivity|].
  rewrite emit_explicit by reflexivity.
  split; [reflexivity|]. cbn. rewrite <- !app_assoc. repeat split.
Qed.

Lemma handlers_of_connect (signal signal' : string) (h : handler) (d : t) :
  handlers_of signal' (connect signal h d)
  = handlers_of signal' d ++ (if decide (signal = signal') then [h] else []).
Proof.
  unfold handlers_of, connect. cbn [registeredConnections].
  rewrite filter_app, fmap_app. f_equal.
  rewrite filter_cons. cbn [fst].
  destruct (decide (signal = signal')); reflexivity.
Qed.

(** X28: [connect] binds a handler behind the handlers already bound to
    the signal and leaves other signals alone: a notification runs the
    handlers of its signal in the order they were connected, the new one
    last.  A notification for a signal that nothing is bound to changes
    nothing.  The guard keeps handlers from nesting, so the outcome of a
    notification is the same for every depth of nesting that is allowed
    for. *)
Theorem connect_binds_in_order
        (fuel : nat) (signal other : string) (h : handler) (d : t) :
  handlers_of signal (connect signal h d) = handlers_of signal d ++ [h]
  /\ (other <> signal ->
      handlers_of other (connect signal h d) = handlers_of other d)
  /\ (entered d = false ->
      exists d',
        emit (S (S fuel)) signal (connect signal h d) = Some d'
        /\ ran d' = ran d ++ concat (guarded_steps <$> handlers_of signal d)
                          ++ guarded_steps h
        /\ emit (S (S fuel)) signal (connect signal h d)
           = emit 2 signal (connect signal h d))
  /\ (handlers_of signal d = [] -> emit (S fuel) signal d = Some d).
Proof.
  split; [|split; [|split]].
  - rewrite handlers_of_connect.
    destruct (decide (signal = signal)); [reflexivity|contradiction].
  - intros Hne. rewrite handlers_of_connect.
    destruct (decide (signal = other)); [congruence|apply app_nil_r].
  - intros H. rewrite !emit_explicit by exact H.
    eexists. split; [reflexivity|]. split; [|reflexivity].
    cbn [ran connect]. rewrite handlers_of_connect.
    destruct (decide (signal = signal)); [|contradiction].
    rewrite fmap_app, concat_app. cbn. rewrite app_nil_r. reflexivity.
  - intros Hn. cbn [emit]. rewrite Hn. reflexivity.
Qed.

End GuardMore.

Lemma throwing_handler_does_not_stop_the_loop_witness :
  DriverImpl.entered driver_throwing = false
  /\ exists d1 d2,
       DriverImpl.emit 2 "clientAdded" driver_throwing = Some d1
       /\ DriverImpl.emit 2 "clientAdded" d1 = Some d2
       /\ DriverImpl.ran d2
          = [("add", true); ("bind", true); ("add", true); ("bind", true)]
       /\ DriverImpl.log d2
          = ["Oops! Error: exists. "; "Oops! Error: exists. "].
Proof.
  split; [reflexivity|].
  destruct (throwing_handler_does_not_stop_the_loop
              0 0 "clientAdded" "clientAdded" driver_throwing eq_refl)
    as (d1 & d2 & E1 & E2 & _ & _ & Hr & Hl).
  exists d1, d2. split; [exact E1|]. split; [exact E2|].
  split; [exact Hr | exact Hl].
Defined.

Lemma connect_binds_in_order_witness :
  DriverImpl.entered driver_feedback = false
  /\ exists d',
       DriverImpl.emit 2 "frameGeometryChanged"
                       (DriverImpl.connect "frameGeometryChanged"
                                           [DriverImpl.Work "late"]
                                           driver_feedback)
       = Some d'
       /\ DriverImpl.ran d'
          = [("arrange", true); ("done", true); ("late", true)].
Proof.
  split; [reflexivity|].
  destruct (connect_binds_in_order
              0 "frameGeometryChanged" "x" [DriverImpl.Work "late"]
              driver_feedback) as (_ & _ & H & _).
  destruct (H eq_refl) as (d' & E & Hr & _).
  exists d'. split; [exact E | exact Hr].
Defined.

(** ** The move and resize tracker of a window *)

Section TrackerFacts.

Import WindowEvents.

Lemma bracketed_app (start over : ControllerCall -> bool)
      (l1 l2 : list ControllerCall) : forall open : bool,
  bracketed start over open (l1 ++ l2)
  = match bracketed start over open l1 with
    | Some open' => bracketed start over open' l2
    | None => None
    end.
Proof.
  induction l1 as [|c l1 IH]; intros open; [reflexivity|].
  cbn [app bracketed].
  destruct (start c); [destruct open; [reflexivity | apply IH]|].
  destruct (over c); [destruct open; [apply IH | reflexivity]|].
  apply IH.
Qed.

Lemma moveResizedChanged_brackets (st : tracker) (move resize : bool) :
  let '(st', calls) := moveResizedChanged st move resize in
  st' = mkTracker move resize
  /\ bracketed is_move_start is_move_over (moving st) calls = Some move
  /\ bracketed is_resize_start is_resize_over (resizing st) calls
     = Some resize.
Proof.
  destruct st as [[] []], move, resize; cbn; repeat split.
Qed.

Lemma frameGeometryChanged_brackets (st : tracker)
      (move resize differs : bool) (open : bool) :
  bracketed is_move_start is_move_over open
            (frameGeometryChanged st move resize differs) = Some open
  /\ bracketed is_resize_start is_resize_over open
               (frameGeometryChanged st move resize differs) = Some open.
Proof.
  destruct st as [[] []], move, resize, differs, open; cbn; repeat split.
Qed.

Lemma run_brackets (ns : list notification) : forall st : tracker,
  let '(st', calls) := run st ns in
  bracketed is_move_start is_move_over (moving st) calls = Some (moving st')
  /\ bracketed is_resize_start is_resize_over (resizing st) calls
     = Some (resizing st').
Proof.
  induction ns as [|n rest IH]; intros st; [split; reflexivity|].
  destruct n as [move resize|move resize differs]; cbn [run].
  - pose proof (moveResizedChanged_brackets st move resize) as H1.
    destruct (moveResizedChanged st move resize) as [st1 calls].
    destruct H1 as (-> & Hm & Hr).
    specialize (IH (mkTracker move resize)).
    destruct (run (mkTracker move resize) rest) as [st2 calls'].
    rewrite !bracketed_app, Hm, Hr. exact IH.
  - specialize (IH st).
    destruct (run st rest) as [st2 calls'].
    destruct (frameGeometryChanged_brackets st move resize differs
                                            (moving st)) as [Hm _].
    destruct (frameGeometryChanged_brackets st move resize differs
                                            (resizing st)) as [_ Hr].
    rewrite !bracketed_app, Hm, Hr. exact IH.
Qed.

(** X29: over every sequence of notifications that reach the handlers of
    a window, the calls to the controller are well bracketed: a move
    start is followed by a move over before the next move start, no move
    over comes without a start, and likewise for resizes; a bracket is
    open at the end exactly when the tracker says so.  After a
    move/resize notification the tracker holds what the client said.
    While the tracker or the client says the window moves, a frame
    geometry notification is reported as a move, never as a plain
    geometry change. *)
Theorem move_and_resize_calls_are_bracketed (ns : list notification) :
  (let '(st, calls) := run initial ns in
   bracketed is_move_start is_move_over false calls = Some (moving st)
   /\ bracketed is_resize_start is_resize_over false calls
      = Some (resizing st))
  /\ (forall st move resize,
        fst (moveResizedChanged st move resize) = mkTracker move resize)
  /\ (forall st move resize differs,
        moving st || move = true ->
        frameGeometryChanged st move resize differs = [onWindowMove])
  /\ (forall st move resize differs,
        onWindowGeometryChanged ∈ frameGeometryChanged st move resize differs
        <-> moving st = false /\ move = false /\ resizing st = false
            /\ resize = false /\ differs = true).
Proof.
  split; [exact (run_brackets ns initial)|].
  split.
  { intros st move resize.
    pose proof (moveResizedChanged_brackets st move resize) as H.
    destruct (moveResizedChanged st move resize). apply H. }
  split.
  { intros st move resize differs H. unfold frameGeometryChanged.
    rewrite H. reflexivity. }
  intros st move resize differs. unfold frameGeometryChanged.
  destruct st as [[] []], move, resize, differs; cbn;
    rewrite ?list_elem_of_singleton, ?elem_of_nil;
    split; try (intros (? & ? & ? & ? & ?)); try intros ?;
    try discriminate; try contradiction; auto.
Qed.

End TrackerFacts.

Lemma move_and_resize_calls_are_bracketed_witness :
  WindowEvents.moving (WindowEvents.mkTracker true false) || false = true
  /\ WindowEvents.frameGeometryChanged
       (WindowEvents.mkTracker true false) false false true
     = [WindowEvents.onWindowMove]
  /\ snd (WindowEvents.run
            WindowEvents.initial
            [WindowEvents.MoveResized true false;
             WindowEvents.FrameGeometry true false true;
             WindowEvents.MoveResized true false;
             WindowEvents.MoveResized false false])
     = [WindowEvents.onWindowMoveStart; WindowEvents.onWindowMove;
        WindowEvents.onWindowMoveOver].
Proof.
  split; [reflexivity|]. split; [|reflexivity].
  destruct (move_and_resize_calls_are_bracketed []) as (_ & _ & H & _).
  apply H. reflexivity.
Defined.
